(** * GoCheck, Kaspersky scanner: a shallow embedding of [scanner/kaspersky.go]

    The development follows the source file from top to bottom.  Go strings
    are byte sequences, so they are modelled by [string] (a list of 8-bit
    [ascii] values); Go's [int] is the 64-bit signed integer of the amd64
    targets the tool is built for, modelled by [Z] with the wrap-around of
    every addition and subtraction written out. *)

From Stdlib Require Import ZArith List String Ascii Bool Lia.
Import ListNotations.

#[local] Open Scope string_scope.
#[local] Open Scope list_scope.
#[local] Open Scope Z_scope.

(** ** Go's [int] *)

Module goint.

Definition wrap (z : Z) : Z := (z + 2 ^ 63) mod 2 ^ 64 - 2 ^ 63.

Definition add (a b : Z) : Z := wrap (a + b).
Definition sub (a b : Z) : Z := wrap (a - b).

(** Integer division truncates toward zero. *)
Definition quo (a b : Z) : Z := wrap (Z.quot a b).

(** [len] of a slice or of a string. *)
Definition len {A : Type} (l : list A) : Z := Z.of_nat (List.length l).

(** The run time allocates far fewer than [2^62] bytes to one slice
    (its limit on amd64 is [2^48]); below this length the sum of two
    offsets into a file fits an [int]. *)
Definition max_len : Z := 2 ^ 62.

End goint.

(** ** Bytes and byte strings *)

Definition byteval (c : ascii) : Z := Z.of_N (N_of_ascii c).

Fixpoint has_byte (c : ascii) (s : string) : bool :=
  match s with
  | EmptyString => false
  | String d s' => Ascii.eqb c d || has_byte c s'
  end.

Fixpoint take (n : nat) (s : string) : string :=
  match n, s with
  | S n', String c s' => String c (take n' s')
  | _, _ => EmptyString
  end.

Fixpoint skip (n : nat) (s : string) : string :=
  match n, s with
  | S n', String _ s' => skip n' s'
  | _, _ => s
  end.

(** ** The parts of Go's [unicode/utf8], [unicode] and [strings] packages
    that the scanner calls *)

Module utf8.

Definition RuneError : Z := 0xFFFD.
Definition RuneSelf : Z := 0x80.

(** The [first] table together with [acceptRanges]: for a leading byte,
    the length of the sequence and the range accepted for the second
    byte; [None] is the table's [xx] (an invalid leading byte). *)
Definition first (s0 : Z) : option (nat * Z * Z) :=
  if s0 <? 0xC2 then None
  else if s0 <=? 0xDF then Some (2%nat, 0x80, 0xBF)
  else if s0 =? 0xE0 then Some (3%nat, 0xA0, 0xBF)
  else if s0 <=? 0xEC then Some (3%nat, 0x80, 0xBF)
  else if s0 =? 0xED then Some (3%nat, 0x80, 0x9F)
  else if s0 <=? 0xEF then Some (3%nat, 0x80, 0xBF)
  else if s0 =? 0xF0 then Some (4%nat, 0x90, 0xBF)
  else if s0 <=? 0xF3 then Some (4%nat, 0x80, 0xBF)
  else if s0 =? 0xF4 then Some (4%nat, 0x80, 0x8F)
  else None.

Definition locb : Z := 0x80.
Definition hicb : Z := 0xBF.
Definition maskx : Z := 0x3F.
Definition mask2 : Z := 0x1F.
Definition mask3 : Z := 0x0F.
Definition mask4 : Z := 0x07.

Definition cont (b : Z) : bool := (locb <=? b) && (b <=? hicb).

(** [DecodeRuneInString]: the first rune of [s] and its width in bytes;
    an invalid or truncated encoding is [RuneError] of width 1. *)
Definition DecodeRuneInString (s : string) : Z * nat :=
  match s with
  | EmptyString => (RuneError, 0%nat)
  | String c0 t0 =>
      let s0 := byteval c0 in
      if s0 <? RuneSelf then (s0, 1%nat)
      else
        match first s0 with
        | None => (RuneError, 1%nat)
        | Some (sz, lo, hi) =>
            match t0 with
            | EmptyString => (RuneError, 1%nat)
            | String c1 t1 =>
                let s1 := byteval c1 in
                if (s1 <? lo) || (hi <? s1) then (RuneError, 1%nat)
                else if (sz <=? 2)%nat then
                  (Z.lor (Z.shiftl (Z.land s0 mask2) 6) (Z.land s1 maskx),
                   2%nat)
                else
                  match t1 with
                  | EmptyString => (RuneError, 1%nat)
                  | String c2 t2 =>
                      let s2 := byteval c2 in
                      if negb (cont s2) then (RuneError, 1%nat)
                      else if (sz <=? 3)%nat then
                        (Z.lor (Z.lor (Z.shiftl (Z.land s0 mask3) 12)
                                      (Z.shiftl (Z.land s1 maskx) 6))
                               (Z.land s2 maskx), 3%nat)
                      else
                        match t2 with
                        | EmptyString => (RuneError, 1%nat)
                        | String c3 _ =>
                            let s3 := byteval c3 in
                            if negb (cont s3) then (RuneError, 1%nat)
                            else
                              (Z.lor (Z.lor (Z.lor
                                 (Z.shiftl (Z.land s0 mask4) 18)
                                 (Z.shiftl (Z.land s1 maskx) 12))
                                 (Z.shiftl (Z.land s2 maskx) 6))
                                 (Z.land s3 maskx), 4%nat)
                        end
                  end
            end
        end
  end.

End utf8.

Module unicode.

Definition MaxLatin1 : Z := 0xFF.

(** [IsSpace]: the Latin-1 white space is listed in the function, the
    rest is the [White_Space] range table. *)
Definition IsSpace (r : Z) : bool :=
  if r <=? MaxLatin1 then
    (r =? 0x09) || (r =? 0x0A) || (r =? 0x0B) || (r =? 0x0C) || (r =? 0x0D)
    || (r =? 0x20) || (r =? 0x85) || (r =? 0xA0)
  else
    (r =? 0x1680) || ((0x2000 <=? r) && (r <=? 0x200A))
    || (r =? 0x2028) || (r =? 0x2029) || (r =? 0x202F) || (r =? 0x205F)
    || (r =? 0x3000).

End unicode.

Module strings.

(** [Contains(s, substr)]: [substr] occurs at some offset of [s]. *)
Fixpoint Contains (s substr : string) : bool :=
  if String.prefix substr s then true
  else match s with
       | EmptyString => false
       | String _ s' => Contains s' substr
       end.

(** [Split(s, sep)] for a separator of one byte, which is how the scanner
    calls it: the pieces between the occurrences of [sep], one more than
    there are occurrences. *)
Fixpoint Split (s : string) (sep : ascii) : list string :=
  match s with
  | EmptyString => [EmptyString]
  | String c s' =>
      if Ascii.eqb c sep then EmptyString :: Split s' sep
      else match Split s' sep with
           | l :: ls => String c l :: ls
           | [] => [String c EmptyString]
           end
  end.

(** The [asciiSpace] table. *)
Definition asciiSpace (b : Z) : bool :=
  (b =? 0x09) || (b =? 0x0A) || (b =? 0x0B) || (b =? 0x0C) || (b =? 0x0D)
  || (b =? 0x20).

Definition flush (cur : option string) : list string :=
  match cur with
  | Some f => [f]
  | None => []
  end.

Definition extend (cur : option string) (chunk : string) : option string :=
  match cur with
  | Some f => Some (f ++ chunk)%string
  | None => Some chunk
  end.

(** The span loop of [FieldsFunc].  [dec] reads one character off the
    front of the string (its value and its width); [cur] is the field being
    read ([start >= 0] in the source), which a white space character
    closes.  The ASCII path of [Fields] is the same loop over single bytes
    with the [asciiSpace] table. *)
Fixpoint spans (dec : string -> Z * nat) (f : Z -> bool) (fuel : nat)
    (s : string) (cur : option string) : list string :=
  match fuel, s with
  | _, EmptyString => flush cur
  | O, _ => flush cur
  | S fuel', _ =>
      let '(r, size) := dec s in
      if f r then flush cur ++ spans dec f fuel' (skip size s) None
      else spans dec f fuel' (skip size s) (extend cur (take size s))
  end.

Definition FieldsFunc (s : string) (f : Z -> bool) : list string :=
  spans utf8.DecodeRuneInString f (String.length s) s None.

Definition byte_at_front (s : string) : Z * nat :=
  match s with
  | EmptyString => (0, 0%nat)
  | String c _ => (byteval c, 1%nat)
  end.

Fixpoint all_ascii (s : string) : bool :=
  match s with
  | EmptyString => true
  | String c s' => (byteval c <? utf8.RuneSelf) && all_ascii s'
  end.

(** [Fields(s)]: the maximal runs of [s] free of white space.  A string
    with a byte outside ASCII goes through [FieldsFunc] and
    [unicode.IsSpace]; an ASCII string is split on [asciiSpace]. *)
Definition Fields (s : string) : list string :=
  if all_ascii s then spans byte_at_front asciiSpace (String.length s) s None
  else FieldsFunc s unicode.IsSpace.

End strings.

(** ** The verdict parser *)

Definition newline : ascii := "010"%char.

Definition IsMalicious (output : string) : bool :=
  let lines := strings.Split output newline in
  existsb (fun line => strings.Contains line "suspicion") lines.

(** The inner loop of [GetSignature] over the fields of one line. *)
Fixpoint first_part (parts : list string) : option string :=
  match parts with
  | [] => None
  | part :: parts' =>
      if strings.Contains part "HEUR:" then Some part else first_part parts'
  end.

(** The outer loop of [GetSignature] over the lines. *)
Fixpoint first_signature (lines : list string) : option string :=
  match lines with
  | [] => None
  | line :: lines' =>
      if strings.Contains line "HEUR:" then
        match first_part (strings.Fields line) with
        | Some part => Some part
        | None => first_signature lines'
        end
      else first_signature lines'
  end.

Definition GetSignature (output : string) : string :=
  let lines := strings.Split output newline in
  match first_signature lines with
  | Some part => part
  | None => "No signature found"
  end.

(** ** Channels and the two goroutines

    An unbuffered channel is the values offered by senders that have not
    been taken yet, and whether the channel has been closed.  Receiving
    from a closed channel that holds nothing does not block: it yields the
    zero value of the element type and [ok = false]. *)

Module channel.

Record chan (A : Type) : Type := Chan { pending : list A; closed : bool }.
Arguments Chan {A} _ _.
Arguments pending {A} _.
Arguments closed {A} _.

Definition make {A : Type} : chan A := Chan [] false.

Definition send {A : Type} (v : A) (c : chan A) : chan A :=
  Chan (pending c ++ [v]) (closed c).

Definition close {A : Type} (c : chan A) : chan A := Chan (pending c) true.

(** [None]: the receiver blocks. *)
Definition recv {A : Type} (zero : A) (c : chan A)
  : option (A * bool * chan A) :=
  match pending c with
  | v :: q => Some (v, true, Chan q (closed c))
  | [] => if closed c then Some (zero, false, c) else None
  end.

End channel.

Import channel.

Record Progress : Type := { Low : Z; High : Z; Malicious : bool }.

(** What the program prints.  The text and its formatting belong to the
    [utils] package and to [fmt]; the model keeps which message is printed
    and the values it is printed with. *)
Inductive Event : Type :=
| NewLine
| ErrThreatDetected            (* "Threat detected in the original file, beginning binary search..." *)
| ErrNoThreatDetected          (* "No threat detected in the original file, dying now" *)
| ErrProgress (p : Progress)   (* "0x%X -> 0x%X - malicious: %t - %s" *)
| DebugScanning (lo hi : Z)    (* "Scanning from %d to %d bytes" *)
| DebugThreat (lo hi : Z)      (* "Threat detected in the range %d to %d bytes" *)
| DebugNoThreat (lo hi : Z)    (* "No threat detected in the range %d to %d bytes" *)
| OkElapsed                    (* "Kaspersky - %s" *)
| ErrIsolated (offset approx size : Z)
                               (* "Isolated bad bytes at offset 0x%X in the file [approximately %d / %d bytes]" *)
| HexDump (data : list Byte.byte)  (* fmt.Println(hex.Dump(threatData)) *)
| ErrThreat (threat : string)  (* one line per key of uniqueThreats *)
| InfoNotMalicious.            (* "Not malicious" *)

(** One turn of a goroutine's [for] loop: it goes round again, it is
    blocked on a receive, or it returns. *)
Inductive Turn (S : Type) : Type :=
| Continue (s : S)
| Wait
| Exit (s : S).
Arguments Continue {S} _.
Arguments Wait {S}.
Arguments Exit {S} _.

Definition zeroProgress : Progress :=
  {| Low := 0; High := 0; Malicious := false |}.

(** The progress reporter (the first [go func]).  [tick] says which case
    the [select] took: the ticker, after which the goroutine receives the
    next progress value and prints it, or the channel itself, whose value
    is dropped.  Both cases return when the channel is closed.  The state
    is the channel and the lines printed in this turn. *)
Definition reporter_turn (tick : bool) (c : chan Progress)
  : Turn (chan Progress * list Event) :=
  match recv zeroProgress c with
  | None => Wait
  | Some (progress, ok, c') =>
      if negb ok then Exit (c', [])
      else Continue (c', if tick then [ErrProgress progress] else [])
  end.

(** The threat collector (the second [go func]): it appends whatever the
    receive yields and goes round again; the [ok] flag is not looked at and
    the loop has no [return]. *)
Definition collector_turn (c : chan string) (threat_list : list string)
  : Turn (chan string * list string) :=
  match recv EmptyString c with
  | None => Wait
  | Some (threat_name, _, c') => Continue (c', threat_list ++ [threat_name])
  end.

(** [n] turns of the collector, stopping where it blocks. *)
Fixpoint collector_run (n : nat) (c : chan string) (threat_list : list string)
  : Turn (chan string * list string) :=
  match n with
  | O => Continue (c, threat_list)
  | S n' =>
      match collector_turn c threat_list with
      | Continue (c', l') => collector_run n' c' l'
      | Wait => Wait
      | Exit s => Exit s
      end
  end.

(** ** The operating system *)

Definition error : Type := string.

Definition FileSystem : Type := string -> option (list Byte.byte).

(** What became of a process: it could not be started (nothing was
    written to its output), or it ran and left an exit code, its standard
    output and its standard error. *)
Inductive Process : Type :=
| StartFailed
| Exited (code : Z) (out err : string).

(** The environment's choices, indexed by the time of the operation: the
    outcome of the process started at that time with that command line on
    that file system, the failure (if any) of a file operation, and whether
    the ticker had fired when the reporter took a progress value. *)
Record OS : Type := {
  exec : nat -> string -> list string -> FileSystem -> Process;
  io_error : nat -> string -> option error;
  ticker_fired : nat -> bool
}.

(** The state of the machine and of the run.  [console] holds the lines
    printed by the main goroutine, in their order; the lines of the
    progress reporter reach the terminal at times of their own and are the
    ones [reporter_turn] gives. *)
Record World : Type := {
  fs : FileSystem;
  now : nat;
  spawned : list (string * list string);
  console : list Event;
  progressUpdates : chan Progress;
  threat_names : chan string;
  threat_list : list string
}.

Definition tick (w : World) : World :=
  {| fs := fs w; now := S (now w); spawned := spawned w;
     console := console w; progressUpdates := progressUpdates w;
     threat_names := threat_names w; threat_list := threat_list w |}.

Definition set_fs (f : FileSystem) (w : World) : World :=
  {| fs := f; now := now w; spawned := spawned w;
     console := console w; progressUpdates := progressUpdates w;
     threat_names := threat_names w; threat_list := threat_list w |}.

Definition spawn (cmd : string * list string) (w : World) : World :=
  {| fs := fs w; now := now w; spawned := spawned w ++ [cmd];
     console := console w; progressUpdates := progressUpdates w;
     threat_names := threat_names w; threat_list := threat_list w |}.

Definition print (out : list Event) (w : World) : World :=
  {| fs := fs w; now := now w; spawned := spawned w;
     console := console w ++ out; progressUpdates := progressUpdates w;
     threat_names := threat_names w; threat_list := threat_list w |}.

Definition set_progressUpdates (c : chan Progress) (w : World) : World :=
  {| fs := fs w; now := now w; spawned := spawned w;
     console := console w; progressUpdates := c;
     threat_names := threat_names w; threat_list := threat_list w |}.

Definition set_threats (c : chan string) (l : list string) (w : World)
  : World :=
  {| fs := fs w; now := now w; spawned := spawned w;
     console := console w; progressUpdates := progressUpdates w;
     threat_names := c; threat_list := l |}.

Definition PrintDebug (e : Event) (debug : bool) (w : World) : World :=
  if debug then print [e] w else w.

Definition ReadFile (os : OS) (name : string) (w : World)
  : (list Byte.byte + error) * World :=
  match io_error os (now w) name with
  | Some e => (inr e, tick w)
  | None =>
      match fs w name with
      | Some data => (inl data, tick w)
      | None => (inr ("open " ++ name)%string, tick w)
      end
  end.

Definition WriteFile (os : OS) (name : string) (data : list Byte.byte)
    (w : World) : option error * World :=
  match io_error os (now w) name with
  | Some e => (Some e, tick w)
  | None =>
      (None,
       tick (set_fs (fun p => if String.eqb p name then Some data else fs w p)
                    w))
  end.

(** Windows' path separator: [filepath.Join] on the platform the scanner
    runs on. *)
Definition Separator : string := "\".
Definition Join (dir name : string) : string :=
  (if String.eqb dir "." then name else dir ++ Separator ++ name)%string.

(** [os.RemoveAll] removes what it can of [dir] and of the paths under it:
    a path stays when the environment refuses the removal.  The caller
    drops the error. *)
Definition RemoveAll (os : OS) (dir : string) (w : World) : World :=
  tick
    (set_fs
       (fun p =>
          if String.eqb p dir || String.prefix (dir ++ Separator)%string p
          then match io_error os (now w) p with
               | None => None
               | Some _ => fs w p
               end
          else fs w p) w).

(** ** The scan invoker *)

Definition stdout_of (p : Process) : string :=
  match p with
  | StartFailed => EmptyString
  | Exited _ out _ => out
  end.

(** [scanCmd.Run()] is called for its effect only: whatever it returns is
    dropped, and the contents of the [out] buffer are returned with [nil]. *)
Definition Scan (os : OS) (file scanPath : string) (w : World)
  : (string * option error) * World :=
  let args := ["SCAN"; file; "/i0"]%string in
  let run := exec os (now w) scanPath args (fs w) in
  let output := stdout_of run in
  ((output, None), tick (spawn (scanPath, args) w)).

(** ** The bisection engine *)

(** [b[lo:hi]]: [None] is the run-time panic of a slice expression whose
    bounds are out of range.  Go checks [hi] against the capacity, which is
    at least the length; the model checks it against the length. *)
Definition slice (b : list Byte.byte) (lo hi : Z) : option (list Byte.byte) :=
  if (0 <=? lo) && (lo <=? hi) && (hi <=? goint.len b)
  then Some (firstn (Z.to_nat (hi - lo)) (skipn (Z.to_nat lo) b))
  else None.

(** How a piece of [KasperskyRun] ends: it runs to its end, it makes the
    function return an error, or it panics. *)
Inductive Result (A : Type) : Type :=
| Return (a : A) (w : World)
| Error (e : error) (w : World)
| Panic (w : World).
Arguments Return {A} _ _.
Arguments Error {A} _ _.
Arguments Panic {A} _.

Definition world_of {A : Type} (r : Result A) : World :=
  match r with
  | Return _ w => w
  | Error _ w => w
  | Panic w => w
  end.

(** The local variables of the search. *)
Record Locals : Type := {
  lastGood : Z;
  upperBound : Z;
  mid : Z;
  threatFound : bool;
  tf_lower : Z
}.

Definition initial (original_file : list Byte.byte) : Locals :=
  let upperBound := goint.len original_file in
  {| lastGood := 0;
     upperBound := upperBound;
     mid := goint.quo upperBound 2;
     threatFound := false;
     tf_lower := 0 |}.

(** The loop condition, [upperBound-lastGood > 1]. *)
Definition guard (l : Locals) : bool :=
  1 <? goint.sub (upperBound l) (lastGood l).

(** A send on [progressUpdates] completes when the reporter has taken the
    value, so the reporter's turn is run at the send.  What the reporter
    prints in that turn is printed by its own goroutine, in no fixed order
    with the lines that the main goroutine prints next, and is not put in
    [console]. *)
Definition send_progress (os : OS) (p : Progress) (w : World) : World :=
  match reporter_turn (ticker_fired os (now w)) (send p (progressUpdates w)) with
  | Continue (c, _) => set_progressUpdates c w
  | Exit (c, _) => set_progressUpdates c w
  | Wait => w
  end.

(** Likewise for [threat_names] and the collector. *)
Definition send_threat_name (name : string) (w : World) : World :=
  match collector_turn (send name (threat_names w)) (threat_list w) with
  | Continue (c, l) => set_threats c l w
  | Exit (c, l) => set_threats c l w
  | Wait => w
  end.

Section Engine.

Variable os : OS.
Variable original_file : list Byte.byte.
Variable testFilePath scanPath : string.
Variable debug : bool.

(** The body of the [for] loop. *)
Definition body (l : Locals) (w : World) : Result Locals :=
  match slice original_file (tf_lower l) (mid l) with
  | None => Panic w
  | Some data =>
      match WriteFile os testFilePath data w with
      | (Some err, w1) => Error err w1
      | (None, w1) =>
          let w2 := PrintDebug (DebugScanning (tf_lower l) (mid l)) debug w1 in
          match Scan os testFilePath scanPath w2 with
          | ((_, Some err), w3) => Error err w3
          | ((output, None), w3) =>
              if IsMalicious output then
                let w4 :=
                  send_progress os
                    {| Low := tf_lower l; High := mid l; Malicious := true |}
                    w3 in
                let w5 := PrintDebug (DebugThreat (tf_lower l) (mid l)) debug w4 in
                (* Found a threat *)
                let upperBound' := mid l in
                Return
                  {| lastGood := lastGood l;
                     upperBound := upperBound';
                     mid := goint.quo (goint.add (lastGood l) upperBound') 2;
                     threatFound := true;
                     tf_lower := tf_lower l |} w5
              else
                let w4 :=
                  send_progress os
                    {| Low := tf_lower l; High := mid l; Malicious := false |}
                    w3 in
                let w5 := PrintDebug (DebugNoThreat (tf_lower l) (mid l)) debug w4 in
                (* No threat found *)
                let lastGood' := mid l in
                Return
                  {| lastGood := lastGood';
                     upperBound := upperBound l;
                     mid := goint.quo (goint.add lastGood' (upperBound l)) 2;
                     threatFound := threatFound l;
                     tf_lower := tf_lower l |} w5
          end
      end
  end.

(** The [for] loop; [None] when the fuel runs out. *)
Fixpoint loop (fuel : nat) (l : Locals) (w : World)
  : option (Result Locals) :=
  if guard l then
    match fuel with
    | O => None
    | S fuel' =>
        match body l w with
        | Return l' w' => loop fuel' l' w'
        | Error e w' => Some (Error e w')
        | Panic w' => Some (Panic w')
        end
    end
  else Some (Return l w).

(** The variables at the head of the loop after [k] full iterations,
    when the loop gets that far. *)
Fixpoint steps (k : nat) (l : Locals) (w : World)
  : option (Locals * World) :=
  match k with
  | O => Some (l, w)
  | S k' =>
      if guard l then
        match body l w with
        | Return l' w' => steps k' l' w'
        | _ => None
        end
      else None
  end.

End Engine.

(** The bounds of the dumped window, clamped to the file. *)
Definition window (l : Locals) (size : Z) : Z * Z :=
  let start := goint.sub (lastGood l) 32 in
  let start := if start <? 0 then 0 else start in
  let end_ := goint.add (mid l) 32 in
  let end_ := if size <? end_ then size else end_ in
  (start, end_).

(** The keys of [uniqueThreats]: every name of [threat_list], once.  Go
    ranges over a map in no fixed order; the model lists the keys in one
    such order. *)
Definition uniqueThreats (threat_list : list string) : list string :=
  nodup string_dec threat_list.

(** The report printed after the loop. *)
Definition report (original_file : list Byte.byte) (size : Z) (l : Locals)
    (w : World) : Result unit :=
  if threatFound l then
    let w1 := print [NewLine; OkElapsed;
                     ErrIsolated (lastGood l) (lastGood l) size] w in
    let '(start, end_) := window l size in
    match slice original_file start end_ with
    | None => Panic w1
    | Some threatData =>
        let w2 := print [HexDump threatData] w1 in
        Return tt (print (map ErrThreat (uniqueThreats (threat_list w2))) w2)
    end
  else Return tt (print [InfoNotMalicious] w).

Definition close_channels (w : World) : World :=
  set_threats (close (threat_names w)) (threat_list w)
    (set_progressUpdates (close (progressUpdates w)) w).

(** [KasperskyRun]: [Return tt] is the source's [return nil].  [fuel]
    bounds the iterations of the loop.  The two goroutines are started
    where their channels are made and take their turns at the sends.
    [os.MkdirAll] is called for its effect on directories, which the file
    map does not hold, and its result is dropped; elapsed times are not
    part of the model. *)
Definition KasperskyRun (fuel : nat) (os : OS) (file scanPath : string)
    (debug : bool) (w : World) : option (Result unit) :=
  match ReadFile os file w with
  | (inr err, w) => Some (Error err w)
  | (inl original_file, w) =>
      let w := set_progressUpdates make w in
      let w := set_threats make [] w in
      let size := goint.len original_file in
      (* Scan original file! *)
      match Scan os file scanPath w with
      | ((_, Some err), w) => Some (Error err w)
      | ((output, None), w) =>
          let w := print [NewLine] w in
          if IsMalicious output then
            (* We found something! *)
            let w := print [ErrThreatDetected] w in
            let w := send_threat_name (GetSignature output) w in
            let tempDir := Join "." "kaspersky" in
            let testFilePath := Join tempDir "testfile.exe" in
            match loop os original_file testFilePath scanPath debug fuel
                       (initial original_file) w with
            | None => None
            | Some (Error err w) => Some (Error err w)
            | Some (Panic w) => Some (Panic w)
            | Some (Return l w) =>
                let w := RemoveAll os tempDir w in
                match report original_file size l w with
                | Return _ w => Some (Return tt (close_channels w))
                | r => Some r
                end
            end
          else
            (* found nothing, time to die *)
            Some (Return tt (print [ErrNoThreatDetected] w))
      end
  end.

(** ** Finding the scanner *)

Definition ScanPath : string :=
  "C:\Program Files (x86)\Kaspersky Lab\Kaspersky Security Cloud 21.3\avp.com".
Definition AltScanPath : string :=
  "C:\Program Files\Kaspersky Lab\Kaspersky Security Cloud 21.3\avp.com".

(** [os.Stat], for its error.  What is at a path, a file, a directory
    or nothing, is the environment's to say: [stat n name] is the error, if
    any, of the call made at time [n] on [name]. *)
Definition Stat (stat : nat -> string -> option error) (name : string)
    (w : World) : option error * World :=
  (stat (now w) name, tick w).

Definition CheckIfExists (stat : nat -> string -> option error)
    (path : string) (w : World) : bool * World :=
  let '(err, w') := Stat stat path w in
  (match err with None => true | Some _ => false end, w').

(** The [for ... range] loop of [FindKaspersky], which breaks at the first
    path that exists; [avp] is the variable the loop assigns. *)
Fixpoint first_existing (stat : nat -> string -> option error)
    (paths : list string) (avp : string) (w : World) : string * World :=
  match paths with
  | [] => (avp, w)
  | path :: paths' =>
      let '(found, w') := CheckIfExists stat path w in
      if found then (path, w') else first_existing stat paths' avp w'
  end.

Definition FindKaspersky (stat : nat -> string -> option error) (w : World)
  : (string * option error) * World :=
  let '(avp, w') :=
    first_existing stat [ScanPath; AltScanPath] EmptyString w in
  ((avp, None), w').

(** ** Vocabulary of the statements *)

(** The text holds the heuristic-name marker. *)
Definition has_marker (s : string) : bool := strings.Contains s "HEUR:".

(** The variables after an iteration whose verdict was [malicious]. *)
Definition narrow (malicious : bool) (l : Locals) : Locals :=
  if malicious then
    {| lastGood := lastGood l;
       upperBound := mid l;
       mid := goint.quo (goint.add (lastGood l) (mid l)) 2;
       threatFound := true;
       tf_lower := tf_lower l |}
  else
    {| lastGood := mid l;
       upperBound := upperBound l;
       mid := goint.quo (goint.add (mid l) (upperBound l)) 2;
       threatFound := threatFound l;
       tf_lower := tf_lower l |}.

(** The command line of a scan. *)
Definition scan_command (file scanPath : string) : string * list string :=
  (scanPath, ["SCAN"; file; "/i0"]%string).

(** The file system once [data] has been written to [name]. *)
Definition written (name : string) (data : list Byte.byte) (files : FileSystem)
  : FileSystem :=
  fun p => if String.eqb p name then Some data else files p.

(** What the scanner prints in the iteration that starts in world [w] and
    writes [data] to the scratch file. *)
Definition iteration_output (os : OS) (testFilePath scanPath : string)
    (data : list Byte.byte) (w : World) : string :=
  stdout_of (exec os (S (now w)) scanPath
               ["SCAN"; testFilePath; "/i0"]%string
               (written testFilePath data (fs w))).

(** The search window of a file of [size] bytes: the bounds are ordered
    and inside the file, [mid] is their midpoint, the scanned slice starts
    at offset 0, and a threat has been found only after an iteration. *)
Record Window (size : Z) (l : Locals) : Prop := {
  window_low : 0 <= lastGood l;
  window_ordered : lastGood l <= upperBound l;
  window_high : upperBound l <= size;
  window_mid : mid l = (lastGood l + upperBound l) / 2;
  window_from : tf_lower l = 0;
  window_found : threatFound l = true -> lastGood l < upperBound l
}.

(** The field being read by [strings.spans], as a string. *)
Definition field_of (cur : option string) : string :=
  match cur with
  | Some f => f
  | None => EmptyString
  end.

(** The text holds a byte of the [asciiSpace] table. *)
Fixpoint has_ascii_space (s : string) : bool :=
  match s with
  | EmptyString => false
  | String c s' => strings.asciiSpace (byteval c) || has_ascii_space s'
  end.

(** [p] is a piece of [s]: some bytes, then [p], then some bytes. *)
Definition piece_of (p s : string) : Prop :=
  exists a b, s = (a ++ p ++ b)%string.

(** What the scanner prints for the whole file, in a run that starts in
    world [w]: the scan comes after the file has been read. *)
Definition first_output (os : OS) (file scanPath : string) (w : World)
  : string :=
  stdout_of (exec os (S (now w)) scanPath
               ["SCAN"; file; "/i0"]%string (fs w)).

(** ** Sample environments

    A scanner that flags exactly the files of at least [T] bytes, printing
    [flagged] for them and nothing for the others, on a machine whose file
    operations succeed. *)
Definition threshold_scanner (T : Z) (flagged : string) : OS :=
  {| exec := fun _ _ args files =>
       match args with
       | [_; file; _] =>
           match files file with
           | Some data =>
               if T <=? goint.len data then Exited 1 flagged EmptyString
               else Exited 0 EmptyString EmptyString
           | None => Exited 2 EmptyString EmptyString
           end
       | _ => StartFailed
       end;
     io_error := fun _ _ => None;
     ticker_fired := fun _ => false |}.

(** A machine that holds one file and has run nothing yet. *)
Definition world_with (name : string) (data : list Byte.byte) : World :=
  {| fs := fun p => if String.eqb p name then Some data else None;
     now := 0%nat;
     spawned := [];
     console := [];
     progressUpdates := make;
     threat_names := make;
     threat_list := [] |}.

Definition sample_report : string :=
  "sample.exe	suspicion HEUR:Trojan.Win32.Generic".

(** A scanner that cannot be started. *)
Definition missing_scanner : OS :=
  {| exec := fun _ _ _ _ => StartFailed;
     io_error := fun _ _ => None;
     ticker_fired := fun _ => false |}.

Definition four_bytes : list Byte.byte :=
  [Byte.x4d; Byte.x5a; Byte.x90; Byte.x00].

Definition seventy_bytes : list Byte.byte := repeat Byte.x41 70.

(** A scanner that flags every file, naming one threat for the file
    [sample.exe] and another for any other file. *)
Definition renaming_scanner : OS :=
  {| exec := fun _ _ args _ =>
       match args with
       | [_; file; _] =>
           if String.eqb file "sample.exe"
           then Exited 1 sample_report EmptyString
           else Exited 1 "testfile.exe	suspicion HEUR:Backdoor.Win32.Agent"
                  EmptyString
       | _ => StartFailed
       end;
     io_error := fun _ _ => None;
     ticker_fired := fun _ => false |}.


(** A machine on which the scratch file cannot be written, with a
    scanner that flags every file. *)
Definition locked_scratch : OS :=
  {| exec := fun _ _ _ _ => Exited 1 sample_report EmptyString;
     io_error := fun _ p =>
       if String.eqb p "kaspersky\testfile.exe"
       then Some "access denied"%string else None;
     ticker_fired := fun _ => true |}.

(** * Properties *)

(** ** Byte strings *)

Lemma take_skip (n : nat) (s : string) : (take n s ++ skip n s)%string = s.
Proof.
  revert s; induction n as [|n IH]; intros [|c s]; simpl; try reflexivity.
  now rewrite IH.
Qed.

Lemma skip_shorter (n : nat) (s : string) :
  (1 <= n)%nat -> s <> EmptyString ->
  (String.length (skip n s) < String.length s)%nat.
Proof.
  intros Hn Hs. destruct n as [|n]; [lia|]. destruct s as [|c s]; [easy|].
  simpl. clear. revert s; induction n as [|n IH]; intros [|d s]; simpl; try lia.
  specialize (IH s). lia.
Qed.

Lemma take_nonempty (n : nat) (s : string) :
  (1 <= n)%nat -> s <> EmptyString -> take n s <> EmptyString.
Proof.
  intros Hn Hs. destruct n; [lia|]. destruct s; [easy|]. discriminate.
Qed.

Lemma append_assoc (a b c : string) :
  ((a ++ b) ++ c)%string = (a ++ (b ++ c))%string.
Proof. induction a as [|x a IH]; simpl; [reflexivity|now rewrite IH]. Qed.

Lemma append_empty_r (a : string) : (a ++ EmptyString)%string = a.
Proof. induction a as [|x a IH]; simpl; [reflexivity|now rewrite IH]. Qed.

Lemma Contains_empty (m : string) :
  strings.Contains EmptyString m = String.prefix m EmptyString.
Proof. now destruct m. Qed.

Lemma Contains_cons (c : ascii) (s m : string) :
  strings.Contains (String c s) m
  = String.prefix m (String c s) || strings.Contains s m.
Proof.
  cbn [strings.Contains]. now destruct (String.prefix m (String c s)).
Qed.

Lemma Contains_empty_false (m : string) :
  m <> EmptyString -> strings.Contains EmptyString m = false.
Proof. intros Hm. rewrite Contains_empty. destruct m; [easy|reflexivity]. Qed.

(** A byte that does not occur in [m] cuts every occurrence of [m]. *)
Lemma prefix_cut (x : ascii) (m a b : string) :
  has_byte x m = false ->
  String.prefix m (a ++ String x b) = String.prefix m a.
Proof.
  revert a; induction m as [|y m IH]; intros a Hx; [now destruct a|].
  simpl in Hx. apply orb_false_elim in Hx as [Hxy Hm].
  destruct a as [|c a]; simpl.
  - destruct (ascii_dec y x) as [->|]; [|reflexivity].
    now rewrite Ascii.eqb_refl in Hxy.
  - destruct (ascii_dec y c); [now apply IH|reflexivity].
Qed.

Lemma Contains_cut (x : ascii) (m a b : string) :
  has_byte x m = false ->
  strings.Contains (a ++ String x b) m
  = strings.Contains a m || strings.Contains b m.
Proof.
  intros Hx. induction a as [|c a IH].
  - change (EmptyString ++ String x b)%string with (String x b).
    rewrite Contains_cons, Contains_empty.
    now rewrite <- (prefix_cut x m EmptyString b Hx).
  - change (String c a ++ String x b)%string with (String c (a ++ String x b)).
    rewrite !Contains_cons, IH.
    change (String c (a ++ String x b)) with (String c a ++ String x b)%string.
    rewrite (prefix_cut x m (String c a) b Hx). now rewrite orb_assoc.
Qed.

Lemma Contains_skip_block (m blk b : string) :
  m <> EmptyString ->
  (forall c, has_byte c blk = true -> has_byte c m = false) ->
  strings.Contains (blk ++ b) m = strings.Contains b m.
Proof.
  intros Hm. induction blk as [|x blk IH]; intros Hblk; [reflexivity|].
  change (String x blk ++ b)%string
    with (EmptyString ++ String x (blk ++ b))%string.
  rewrite Contains_cut.
  - rewrite (Contains_empty_false m Hm). simpl. apply IH.
    intros c Hc. apply Hblk. simpl. now rewrite Hc, orb_true_r.
  - apply Hblk. simpl. now rewrite Ascii.eqb_refl.
Qed.

Lemma Contains_block (m a blk b : string) :
  m <> EmptyString -> blk <> EmptyString ->
  (forall c, has_byte c blk = true -> has_byte c m = false) ->
  strings.Contains (a ++ blk ++ b) m
  = strings.Contains a m || strings.Contains b m.
Proof.
  intros Hm Hne Hblk. destruct blk as [|x blk]; [easy|].
  change (a ++ String x blk ++ b)%string
    with (a ++ String x (blk ++ b))%string.
  rewrite Contains_cut.
  - f_equal. apply Contains_skip_block; [assumption|].
    intros c Hc. apply Hblk. simpl. now rewrite Hc, orb_true_r.
  - apply Hblk. simpl. now rewrite Ascii.eqb_refl.
Qed.

(** ** Lines *)

(** The first line of [s] has the prefixes of [s] that are free of the
    separator. *)
Lemma Split_head (s : string) (sep : ascii) :
  exists l ls, strings.Split s sep = l :: ls
    /\ forall m, has_byte sep m = false ->
         String.prefix m s = String.prefix m l.
Proof.
  induction s as [|c s (l & ls & Hsplit & Hpre)]; simpl.
  - now exists EmptyString, [].
  - destruct (Ascii.eqb c sep) eqn:Hc.
    + apply Ascii.eqb_eq in Hc as ->.
      exists EmptyString, (strings.Split s sep). split; [reflexivity|].
      intros m Hm. apply (prefix_cut sep m EmptyString s Hm).
    + rewrite Hsplit. exists (String c l), ls. split; [reflexivity|].
      intros [|y m] Hm; [reflexivity|]. simpl in *.
      apply orb_false_elim in Hm as [_ Hm].
      destruct (ascii_dec y c); [now apply Hpre|reflexivity].
Qed.

(** A marker without the separator is in the text exactly when it is in
    one of its lines. *)
Lemma Contains_Split (s m : string) (sep : ascii) :
  has_byte sep m = false ->
  existsb (fun line => strings.Contains line m) (strings.Split s sep)
  = strings.Contains s m.
Proof.
  intros Hm. induction s as [|c s IH].
  - simpl existsb. now rewrite orb_false_r.
  - destruct (Split_head s sep) as (l & ls & Hsplit & Hpre).
    cbn [strings.Split]. destruct (Ascii.eqb c sep) eqn:Hc.
    + apply Ascii.eqb_eq in Hc as ->. cbn [existsb]. rewrite IH.
      exact (eq_sym (Contains_cut sep m EmptyString s Hm)).
    + rewrite Hsplit in IH |- *. cbn [existsb] in IH |- *.
      rewrite !Contains_cons, <- IH, orb_assoc. f_equal. f_equal.
      destruct m as [|y m]; [reflexivity|]. simpl in Hm |- *.
      apply orb_false_elim in Hm as [_ Hm].
      destruct (ascii_dec y c); [|reflexivity]. symmetry. now apply Hpre.
Qed.

(** ** Fields *)

(** White space never holds a byte of the marker: a marker that is in a
    line is in one of the line's fields.  This is stated for any reader
    [dec] of characters whose white space is made of bytes foreign to the
    marker. *)
Lemma spans_Contains (dec : string -> Z * nat) (f : Z -> bool) (m : string) :
  m <> EmptyString ->
  (forall s r size, s <> EmptyString -> dec s = (r, size) ->
     (1 <= size)%nat
     /\ (f r = true ->
         forall c, has_byte c (take size s) = true -> has_byte c m = false)) ->
  forall fuel s cur,
    (String.length s <= fuel)%nat ->
    strings.Contains (field_of cur ++ s) m = true ->
    exists part,
      In part (strings.spans dec f fuel s cur)
      /\ strings.Contains part m = true.
Proof.
  intros Hm Hdec.
  assert (Hflush : forall cur, strings.Contains (field_of cur) m = true ->
            exists part, In part (strings.flush cur)
                         /\ strings.Contains part m = true).
  { intros [fld|] H; cbn [field_of strings.flush] in *.
    - exists fld. split; [now left|assumption].
    - now rewrite (Contains_empty_false m Hm) in H. }
  induction fuel as [|fuel IH]; intros s cur Hlen Hin.
  - destruct s as [|c s]; [|simpl in Hlen; lia].
    rewrite append_empty_r in Hin. now apply Hflush.
  - destruct s as [|c s].
    + rewrite append_empty_r in Hin. now apply Hflush.
    + cbn [strings.spans].
      destruct (dec (String c s)) as [r size] eqn:Hd.
      destruct (Hdec (String c s) r size ltac:(discriminate) Hd)
        as [Hsize Hspace].
      pose proof (skip_shorter size (String c s) Hsize ltac:(discriminate))
        as Hshort.
      rewrite <- (take_skip size (String c s)) in Hin.
      destruct (f r) eqn:Hf.
      * rewrite Contains_block in Hin;
          [|assumption|now apply take_nonempty|now apply Hspace].
        apply orb_true_iff in Hin as [Hin|Hin].
        -- destruct (Hflush cur Hin) as (part & Hpart & Hc).
           exists part. split; [|assumption]. apply in_or_app. now left.
        -- destruct (IH (skip size (String c s)) None ltac:(lia) Hin)
             as (part & Hpart & Hc).
           exists part. split; [|assumption]. apply in_or_app. now right.
      * apply IH; [lia|].
        destruct cur as [fld|]; cbn [field_of strings.extend] in Hin |- *;
          [|assumption].
        now rewrite append_assoc.
Qed.

(** The bytes of the heuristic-name marker are printable ASCII. *)
Lemma marker_byte (c : ascii) :
  has_byte c "HEUR:" = true ->
  strings.asciiSpace (byteval c) = false /\ byteval c < 0x80.
Proof.
  simpl. rewrite !orb_true_iff, !Ascii.eqb_eq.
  intros [->|[->|[->|[->|[->|H]]]]]; [..|discriminate]; now vm_compute.
Qed.

Lemma space_not_marker (c : ascii) :
  strings.asciiSpace (byteval c) = true \/ 0x80 <= byteval c ->
  has_byte c "HEUR:" = false.
Proof.
  intros H. destruct (has_byte c "HEUR:") eqn:Hc; [|reflexivity].
  destruct (marker_byte c Hc) as [Hs Hlt]. destruct H; [congruence|lia].
Qed.

Lemma has_byte_one (c d : ascii) :
  has_byte c (String d EmptyString) = true -> c = d.
Proof. simpl. rewrite orb_false_r. apply Ascii.eqb_eq. Qed.

Lemma byte_at_front_space (s : string) (r : Z) (size : nat) :
  s <> EmptyString -> strings.byte_at_front s = (r, size) ->
  (1 <= size)%nat
  /\ (strings.asciiSpace r = true ->
      forall c, has_byte c (take size s) = true -> has_byte c "HEUR:" = false).
Proof.
  destruct s as [|d s]; [easy|]. intros _ [= <- <-]. split; [lia|].
  intros Hsp c Hc. apply has_byte_one in Hc as ->.
  apply space_not_marker. now left.
Qed.

Lemma IsSpace_ascii (r : Z) :
  r < 0x80 -> unicode.IsSpace r = true -> strings.asciiSpace r = true.
Proof.
  unfold unicode.IsSpace, unicode.MaxLatin1, strings.asciiSpace. intros Hr.
  destruct (r <=? 0xFF) eqn:Hle; [|lia].
  rewrite !orb_true_iff, !Z.eqb_eq. intuition lia.
Qed.

Lemma first_accept (s0 : Z) (sz : nat) (lo hi : Z) :
  utf8.first s0 = Some (sz, lo, hi) -> 0x80 <= lo.
Proof.
  unfold utf8.first.
  repeat match goal with
         | |- context [if ?b then _ else _] => destruct b
         end; intros [= <- <- <-]; lia.
Qed.

Ltac to_Z_facts :=
  repeat match goal with
         | H : (_ || _) = false |- _ => apply orb_false_elim in H as [? ?]
         | H : negb _ = false |- _ => apply negb_false_iff in H
         | H : utf8.cont _ = true |- _ =>
             unfold utf8.cont, utf8.locb in H; apply andb_true_iff in H as [? ?]
         | H : (_ <? _) = false |- _ => apply Z.ltb_ge in H
         | H : (_ <=? _) = true |- _ => apply Z.leb_le in H
         end.

Ltac chunk_byte H :=
  cbn [take has_byte] in H; rewrite ?orb_true_iff, ?Ascii.eqb_eq in H;
  repeat match type of H with
         | _ \/ _ => destruct H as [H|H]
         end;
  try discriminate H; subst.

Lemma IsSpace_RuneError : unicode.IsSpace utf8.RuneError = false.
Proof. reflexivity. Qed.

(** A white space rune is an ASCII blank or a sequence of bytes that all
    have their high bit set. *)
Lemma DecodeRune_space (s : string) (r : Z) (size : nat) :
  s <> EmptyString -> utf8.DecodeRuneInString s = (r, size) ->
  (1 <= size)%nat
  /\ (unicode.IsSpace r = true ->
      forall c, has_byte c (take size s) = true -> has_byte c "HEUR:" = false).
Proof.
  destruct s as [|c0 t0]; [easy|]. intros _. unfold utf8.DecodeRuneInString.
  destruct (byteval c0 <? utf8.RuneSelf) eqn:H0.
  - intros [= <- <-]. split; [lia|]. intros Hsp c Hc.
    apply has_byte_one in Hc as ->. apply space_not_marker. left.
    apply IsSpace_ascii; [now apply Z.ltb_lt in H0|assumption].
  - unfold utf8.RuneSelf in H0.
    destruct (utf8.first (byteval c0)) as [[[sz lo] hi]|] eqn:Hf;
      [pose proof (first_accept _ _ _ _ Hf)|];
      repeat match goal with
             | |- context [match ?t with
                           | EmptyString => _
                           | String _ _ => _
                           end] => destruct t
             | |- context [if ?b then _ else _] => destruct b eqn:?
             end;
      intros [= <- <-]; (split; [lia|]);
      first [ intros Hsp; now rewrite IsSpace_RuneError in Hsp
            | intros _ c Hc; to_Z_facts; chunk_byte Hc;
              apply space_not_marker; right; lia ].
Qed.

Lemma Fields_Contains (line : string) :
  strings.Contains line "HEUR:" = true ->
  exists part,
    In part (strings.Fields line) /\ strings.Contains part "HEUR:" = true.
Proof.
  intros H. unfold strings.Fields, strings.FieldsFunc.
  destruct (strings.all_ascii line);
    apply (spans_Contains _ _ "HEUR:" ltac:(discriminate)); auto using
      byte_at_front_space, DecodeRune_space.
Qed.

(** ** The verdict parser *)

Lemma first_part_find (parts : list string) :
  first_part parts = find has_marker parts.
Proof. induction parts as [|p parts IH]; simpl; [|rewrite IH]; reflexivity. Qed.

Lemma find_has_marker (line : string) :
  has_marker line = true ->
  exists part, find has_marker (strings.Fields line) = Some part.
Proof.
  intros H. destruct (Fields_Contains line H) as (part & Hin & Hc).
  destruct (find has_marker (strings.Fields line)) as [p|] eqn:Hfind;
    [now exists p|].
  pose proof (find_none _ _ Hfind part Hin) as Hnone.
  unfold has_marker in Hnone. congruence.
Qed.

Lemma first_signature_find (lines : list string) :
  first_signature lines
  = match find has_marker lines with
    | Some line => find has_marker (strings.Fields line)
    | None => None
    end.
Proof.
  induction lines as [|line lines IH]; [reflexivity|].
  cbn [first_signature find]. fold (has_marker line).
  destruct (has_marker line) eqn:Hline; [|assumption].
  rewrite first_part_find.
  now destruct (find_has_marker line Hline) as [part ->].
Qed.

(** C7 (as amended).  [GetSignature] looks for the first line that holds
    the marker "HEUR:" and returns the first white-space-delimited field of
    that line that holds it, which always exists; when no line holds the
    marker it returns the sentinel "No signature found". *)
Theorem GetSignature_first_field (output : string) :
  match find has_marker (strings.Split output newline) with
  | Some line =>
      exists part,
        find has_marker (strings.Fields line) = Some part
        /\ GetSignature output = part
  | None => GetSignature output = "No signature found"%string
  end.
Proof.
  unfold GetSignature. rewrite first_signature_find.
  destruct (find has_marker (strings.Split output newline)) as [line|] eqn:Hl;
    [|reflexivity].
  apply find_some in Hl as [_ Hl].
  destruct (find_has_marker line Hl) as [part Hpart].
  exists part. now rewrite Hpart.
Qed.

(** C7 as first stated fails on the sentinel: with no marker in the text
    the function returns "No signature found", capitalised, which is not
    the string "no signature found". *)
Lemma GetSignature_sentinel_differs :
  find has_marker (strings.Split EmptyString newline) = None
  /\ GetSignature EmptyString <> "no signature found"%string.
Proof. split; [reflexivity|]. vm_compute. discriminate. Qed.

(** The verdict is the presence of the suspicion marker anywhere in the
    text: splitting into lines does not change it. *)
Lemma IsMalicious_Contains (output : string) :
  IsMalicious output = strings.Contains output "suspicion".
Proof. unfold IsMalicious. now apply Contains_Split. Qed.

(** C6.  [Scan] returns what the process wrote to its standard output
    together with a nil error, whatever became of the process: the output
    of a process that ran, with any exit code, and the empty text for one
    that could not be started.  A text without the suspicion marker, the
    empty one included, is a clean verdict, and an iteration whose scan of
    the scratch file prints such a text moves [lastGood] to [mid]. *)
Theorem Scan_never_fails (os : OS) (file scanPath : string) (w : World)
    (original_file : list Byte.byte) (testFilePath : string) (debug : bool)
    (l : Locals) (w0 : World) (data : list Byte.byte) :
  fst (Scan os file scanPath w)
  = (stdout_of (exec os (now w) scanPath ["SCAN"; file; "/i0"]%string (fs w)),
     None)
  /\ stdout_of StartFailed = EmptyString
  /\ (forall code out err, stdout_of (Exited code out err) = out)
  /\ IsMalicious EmptyString = false
  /\ (forall output, IsMalicious output = strings.Contains output "suspicion")
  /\ (slice original_file (tf_lower l) (mid l) = Some data ->
      io_error os (now w0) testFilePath = None ->
      (let w1 := snd (WriteFile os testFilePath data w0) in
       strings.Contains
         (stdout_of (exec os (now w1) scanPath
                       ["SCAN"; testFilePath; "/i0"]%string (fs w1)))
         "suspicion" = false) ->
      exists w',
        body os original_file testFilePath scanPath debug l w0
        = Return {| lastGood := mid l;
                    upperBound := upperBound l;
                    mid := goint.quo (goint.add (mid l) (upperBound l)) 2;
                    threatFound := threatFound l;
                    tf_lower := tf_lower l |} w').
Proof.
  repeat split; auto using IsMalicious_Contains.
  intros Hslice Hio Hclean.
  unfold body. rewrite Hslice. unfold WriteFile in *. rewrite Hio in *.
  cbn [snd] in Hclean. unfold Scan.
  assert (Hdbg : forall e w, now (PrintDebug e debug w) = now w
                             /\ fs (PrintDebug e debug w) = fs w)
    by (intros e w2; unfold PrintDebug; now destruct debug).
  destruct (Hdbg (DebugScanning (tf_lower l) (mid l))
              (tick (set_fs (fun p => if (p =? testFilePath)%string
                                      then Some data else fs w0 p) w0)))
    as [-> ->].
  rewrite IsMalicious_Contains, Hclean. eauto.
Qed.

Lemma Scan_never_fails_witness :
  exists w',
    body missing_scanner four_bytes "kaspersky\testfile.exe" "avp.com" false
      (initial four_bytes) (world_with "sample.exe" four_bytes)
    = Return {| lastGood := 2; upperBound := 4; mid := 3;
                threatFound := false; tf_lower := 0 |} w'.
Proof.
  apply (Scan_never_fails missing_scanner "sample.exe" "avp.com"
           (world_with "sample.exe" four_bytes) four_bytes
           "kaspersky\testfile.exe" false (initial four_bytes)
           (world_with "sample.exe" four_bytes)
           [Byte.x4d; Byte.x5a]);
    reflexivity.
Defined.

(** ** Arithmetic on [int] *)

Lemma wrap_small (z : Z) : - 2 ^ 63 <= z < 2 ^ 63 -> goint.wrap z = z.
Proof. intros H. unfold goint.wrap. rewrite Z.mod_small; lia. Qed.

Lemma add_small (a b : Z) :
  - 2 ^ 63 <= a + b < 2 ^ 63 -> goint.add a b = a + b.
Proof. apply wrap_small. Qed.

Lemma sub_small (a b : Z) :
  - 2 ^ 63 <= a - b < 2 ^ 63 -> goint.sub a b = a - b.
Proof. apply wrap_small. Qed.

Lemma quo_half (a : Z) : 0 <= a < 2 ^ 63 -> goint.quo a 2 = a / 2.
Proof.
  intros H. unfold goint.quo. rewrite Z.quot_div_nonneg by lia.
  apply wrap_small. pose proof (Z.div_pos a 2). pose proof (Z.div_le_upper_bound a 2 a).
  lia.
Qed.

Ltac int_range :=
  unfold goint.max_len in *;
  change (2 ^ 62) with 4611686018427387904 in *;
  change (2 ^ 63) with 9223372036854775808 in *.

(** The state in which the search starts. *)
Lemma initial_Window (original_file : list Byte.byte) :
  goint.len original_file <= goint.max_len ->
  Window (goint.len original_file) (initial original_file).
Proof.
  intros Hlen. pose proof (Nat2Z.is_nonneg (List.length original_file)) as H0.
  fold (goint.len original_file) in H0.
  split; cbn [initial lastGood upperBound mid tf_lower threatFound];
    try lia; try discriminate.
  rewrite quo_half; [reflexivity|int_range; lia].
Qed.

Lemma guard_width (size : Z) (l : Locals) :
  size <= goint.max_len -> Window size l ->
  guard l = (1 <? upperBound l - lastGood l).
Proof.
  intros Hsize [H0 H1 H2 _ _ _]. unfold guard.
  rewrite sub_small; [reflexivity|int_range; lia].
Qed.

(** One iteration: [mid] is strictly inside the window, the window stays a
    window, one bound moves toward the other, and the width goes from [d]
    to at most [(d+1)/2]. *)
Lemma narrow_Window (size : Z) (l : Locals) (malicious : bool) :
  size <= goint.max_len -> Window size l -> guard l = true ->
  lastGood l < mid l < upperBound l
  /\ Window size (narrow malicious l)
  /\ lastGood (narrow malicious l) < upperBound (narrow malicious l)
  /\ lastGood l <= lastGood (narrow malicious l)
  /\ upperBound (narrow malicious l) <= upperBound l
  /\ 2 * (upperBound (narrow malicious l) - lastGood (narrow malicious l))
     <= upperBound l - lastGood l + 1.
Proof.
  intros Hsize Hw Hg. rewrite (guard_width size l Hsize Hw) in Hg.
  apply Z.ltb_lt in Hg. destruct Hw as [H0 H1 H2 Hmid Hfrom Hfound].
  assert (Hm : lastGood l < mid l < upperBound l
               /\ 2 * mid l <= lastGood l + upperBound l
               /\ lastGood l + upperBound l <= 2 * mid l + 1).
  { rewrite Hmid. pose proof (Z.div_mod (lastGood l + upperBound l) 2).
    pose proof (Z.mod_pos_bound (lastGood l + upperBound l) 2). lia. }
  split; [tauto|].
  destruct malicious; cbn [narrow lastGood upperBound mid tf_lower threatFound].
  - rewrite add_small, quo_half by (int_range; lia).
    repeat split; cbn [lastGood upperBound mid tf_lower threatFound];
      try lia; try assumption.
  - rewrite add_small, quo_half by (int_range; lia).
    repeat split; cbn [lastGood upperBound mid tf_lower threatFound];
      try lia; try assumption.
Qed.

(** ** The effects of one iteration *)

Lemma PrintDebug_frame (e : Event) (debug : bool) (w : World) :
  fs (PrintDebug e debug w) = fs w
  /\ now (PrintDebug e debug w) = now w
  /\ spawned (PrintDebug e debug w) = spawned w
  /\ threat_list (PrintDebug e debug w) = threat_list w
  /\ threat_names (PrintDebug e debug w) = threat_names w.
Proof. unfold PrintDebug. now destruct debug. Qed.

Lemma send_progress_frame (os : OS) (p : Progress) (w : World) :
  fs (send_progress os p w) = fs w
  /\ now (send_progress os p w) = now w
  /\ spawned (send_progress os p w) = spawned w
  /\ threat_list (send_progress os p w) = threat_list w
  /\ threat_names (send_progress os p w) = threat_names w.
Proof.
  unfold send_progress.
  destruct (reporter_turn _ _) as [[c out]| |[c out]]; now cbn.
Qed.

Lemma slice_prefix (b : list Byte.byte) (hi : Z) :
  0 <= hi <= goint.len b ->
  slice b 0 hi = Some (firstn (Z.to_nat hi) b)
  /\ goint.len (firstn (Z.to_nat hi) b) = hi.
Proof.
  intros H. unfold slice, goint.len in *.
  destruct (0 <=? 0) eqn:E0; [|lia].
  destruct (0 <=? hi) eqn:E1; [|lia].
  destruct (hi <=? Z.of_nat (List.length b)) eqn:E2; [|lia].
  cbn [andb Z.to_nat skipn]. rewrite Z.sub_0_r. split; [reflexivity|].
  rewrite length_firstn. lia.
Qed.

Section Iteration.

Variable os : OS.
Variable original_file : list Byte.byte.
Variable testFilePath scanPath : string.
Variable debug : bool.

Hypothesis fits : goint.len original_file <= goint.max_len.

Let size := goint.len original_file.
Let scratch (l : Locals) := firstn (Z.to_nat (mid l)) original_file.

(** In a window whose guard holds, the body does not panic: it fails on
    a write error and otherwise narrows the window by the verdict on the
    prefix of [mid] bytes, after one scan and nothing sent to the threat
    collector. *)
Lemma body_cases (l : Locals) (w : World) :
  Window size l -> guard l = true ->
  match io_error os (now w) testFilePath with
  | Some err =>
      body os original_file testFilePath scanPath debug l w
      = Error err (tick w)
  | None =>
      exists w',
        body os original_file testFilePath scanPath debug l w
        = Return
            (narrow (IsMalicious
                       (iteration_output os testFilePath scanPath
                          (scratch l) w)) l) w'
        /\ spawned w' = spawned w ++ [scan_command testFilePath scanPath]
        /\ threat_list w' = threat_list w
        /\ threat_names w' = threat_names w
        /\ now w' = S (S (now w))
  end.
Proof.
  intros Hw Hg.
  destruct (narrow_Window size l true fits Hw Hg) as [Hmid _].
  pose proof Hw as [H0 H1 H2 _ Hfrom _].
  destruct (slice_prefix original_file (mid l)) as [Hslice _];
    [fold size; lia|].
  unfold body. rewrite Hfrom, Hslice. unfold WriteFile.
  destruct (io_error os (now w) testFilePath) as [err|]; [reflexivity|].
  fold (written testFilePath (scratch l) (fs w)).
  set (w1 := tick (set_fs _ w)).
  destruct (PrintDebug_frame (DebugScanning 0 (mid l)) debug w1)
    as (Hfs & Hnow & Hsp & Htl & Htn).
  unfold Scan. rewrite Hfs, Hnow. cbn [fs now w1 tick set_fs].
  fold (iteration_output os testFilePath scanPath (scratch l) w).
  set (w3 := tick (spawn _ _)).
  assert (H3 : spawned w3 = spawned w ++ [scan_command testFilePath scanPath]
               /\ threat_list w3 = threat_list w
               /\ threat_names w3 = threat_names w
               /\ now w3 = S (S (now w))).
  { subst w3. cbn [spawned threat_list threat_names now tick spawn].
    rewrite Hsp, Htl, Htn, Hnow. now subst w1. }
  destruct H3 as (E1 & E2 & E3 & E4).
  destruct (IsMalicious _); cbn [narrow]; rewrite ?Hfrom; eexists;
    (split; [reflexivity|]);
    match goal with
    | |- context [PrintDebug ?e debug (send_progress os ?p w3)] =>
        destruct (PrintDebug_frame e debug (send_progress os p w3))
          as (_ & -> & -> & -> & ->);
        destruct (send_progress_frame os p w3) as (_ & -> & -> & -> & ->)
    end; auto.
Qed.

End Iteration.

(** ** The search *)

Lemma pow2_succ (j : nat) : 2 ^ Z.of_nat (S j) = 2 * 2 ^ Z.of_nat j.
Proof. rewrite Nat2Z.inj_succ. apply Z.pow_succ_r. lia. Qed.

Lemma log2_up_bound (n : Z) : n <= 2 ^ Z.of_nat (Z.to_nat (Z.log2_up n)).
Proof.
  rewrite Z2Nat.id by apply Z.log2_up_nonneg.
  destruct (Z_lt_le_dec 1 n) as [H|H].
  - apply Z.log2_up_spec. assumption.
  - rewrite Z.log2_up_eqn0 by assumption. simpl. lia.
Qed.

Section Search.

Variable os : OS.
Variable original_file : list Byte.byte.
Variable testFilePath scanPath : string.
Variable debug : bool.

Hypothesis fits : goint.len original_file <= goint.max_len.

Let size := goint.len original_file.
Let command := scan_command testFilePath scanPath.

Local Notation "'run_body'" :=
  (body os original_file testFilePath scanPath debug) (at level 0).
Local Notation "'run_loop'" :=
  (loop os original_file testFilePath scanPath debug) (at level 0).
Local Notation "'run_steps'" :=
  (steps os original_file testFilePath scanPath debug) (at level 0).

(** What [k] iterations keep and change. *)
Lemma steps_Window (k : nat) (l : Locals) (w : World) (l' : Locals)
    (w' : World) :
  Window size l -> run_steps k l w = Some (l', w') ->
  Window size l'
  /\ lastGood l <= lastGood l'
  /\ upperBound l' <= upperBound l
  /\ (k <> 0%nat -> lastGood l' < upperBound l')
  /\ spawned w' = spawned w ++ repeat command k
  /\ threat_list w' = threat_list w
  /\ threat_names w' = threat_names w.
Proof.
  revert l w. induction k as [|k IH]; intros l w Hw Hsteps.
  - injection Hsteps as <- <-. rewrite app_nil_r.
    split; [assumption|]. repeat split; lia.
  - cbn [steps] in Hsteps.
    destruct (guard l) eqn:Hg; [|discriminate].
    pose proof (body_cases os original_file testFilePath scanPath debug
                  fits l w Hw Hg) as Hbody.
    destruct (io_error os (now w) testFilePath) as [err|].
    + now rewrite Hbody in Hsteps.
    + destruct Hbody as (w1 & Hb & Hsp & Htl & Htn & _).
      rewrite Hb in Hsteps. set (b := IsMalicious _) in *.
      destruct (narrow_Window size l b fits Hw Hg)
        as (_ & Hw1 & Hlt & Hlg & Hub & _).
      destruct (IH _ _ Hw1 Hsteps) as (Hw' & Hlg' & Hub' & Hk & Hsp' & Htl' & Htn').
      split; [assumption|]. repeat split; try lia.
      * intros _. destruct k as [|k]; [|apply Hk; discriminate].
        injection Hsteps as <- <-. assumption.
      * rewrite Hsp', Hsp, <- app_assoc. reflexivity.
      * congruence.
      * congruence.
Qed.

(** A window of width at most [2^j] leaves room for [j] iterations. *)
Lemma steps_count (k j : nat) (l : Locals) (w : World)
    (l' : Locals) (w' : World) :
  Window size l -> upperBound l - lastGood l <= 2 ^ Z.of_nat j ->
  run_steps k l w = Some (l', w') -> (k <= j)%nat.
Proof.
  revert j l w. induction k as [|k IH]; intros j l w Hw Hj Hsteps; [lia|].
  cbn [steps] in Hsteps. destruct (guard l) eqn:Hg; [|discriminate].
  pose proof (body_cases os original_file testFilePath scanPath debug
                fits l w Hw Hg) as Hbody.
  destruct (io_error os (now w) testFilePath) as [err|];
    [now rewrite Hbody in Hsteps|].
  destruct Hbody as (w1 & Hb & _). rewrite Hb in Hsteps.
  set (b := IsMalicious _) in *.
  destruct (narrow_Window size l b fits Hw Hg) as (_ & Hw1 & _ & _ & _ & Hd).
  rewrite (guard_width size l fits Hw) in Hg. apply Z.ltb_lt in Hg.
  destruct j as [|j]; [simpl in Hj; lia|]. rewrite pow2_succ in Hj.
  apply le_n_S. apply (IH j _ w1 Hw1); [lia|exact Hsteps].
Qed.

(** A loop that ends normally has run some number of full iterations
    and stopped on a false guard. *)
Lemma loop_steps (fuel : nat) (l : Locals) (w : World) (l' : Locals)
    (w' : World) :
  run_loop fuel l w = Some (Return l' w') ->
  exists k, (k <= fuel)%nat /\ run_steps k l w = Some (l', w')
            /\ guard l' = false.
Proof.
  revert l w. induction fuel as [|fuel IH]; intros l w Hloop;
    cbn [loop] in Hloop; destruct (guard l) eqn:Hg; try discriminate.
  - injection Hloop as <- <-. exists 0%nat. split; [lia|now split].
  - destruct (run_body l w) as [l1 w1|e w1|w1] eqn:Hb; try discriminate.
    destruct (IH _ _ Hloop) as (k & Hk & Hsteps & Hg').
    exists (S k). repeat split; [lia| |assumption].
    cbn [steps]. now rewrite Hg, Hb.
  - injection Hloop as <- <-. exists 0%nat. split; [lia|now split].
Qed.

(** The loop does not panic, whatever the fuel. *)
Lemma loop_no_panic (fuel : nat) (l : Locals) (w w' : World) :
  Window size l -> run_loop fuel l w <> Some (Panic w').
Proof.
  revert l w. induction fuel as [|fuel IH]; intros l w Hw;
    cbn [loop]; destruct (guard l) eqn:Hg; try discriminate.
  pose proof (body_cases os original_file testFilePath scanPath debug
                fits l w Hw Hg) as Hbody.
  destruct (io_error os (now w) testFilePath) as [err|].
  - rewrite Hbody. discriminate.
  - destruct Hbody as (w1 & -> & _). apply IH.
    now apply (narrow_Window size l _ fits Hw Hg).
Qed.

(** With [j] units of fuel for a window of width at most [2^j] the loop
    ends, without a panic and after at most [j] scans. *)
Lemma loop_total (j : nat) :
  forall (fuel : nat) (l : Locals) (w : World),
    Window size l -> upperBound l - lastGood l <= 2 ^ Z.of_nat j ->
    (j <= fuel)%nat ->
    exists r, run_loop fuel l w = Some r
              /\ (List.length (spawned (world_of r))
                  <= List.length (spawned w) + j)%nat.
Proof.
  induction j as [|j IH]; intros fuel l w Hw Hj Hfuel.
  - exists (Return l w). split; [|cbn; lia].
    assert (Hg : guard l = false).
    { rewrite (guard_width size l fits Hw). apply Z.ltb_ge.
      simpl in Hj. lia. }
    destruct fuel; cbn [loop]; now rewrite Hg.
  - destruct (guard l) eqn:Hg.
    + destruct fuel as [|fuel]; [lia|]. cbn [loop]. rewrite Hg.
      pose proof (body_cases os original_file testFilePath scanPath debug
                    fits l w Hw Hg) as Hbody.
      destruct (io_error os (now w) testFilePath) as [err|].
      * rewrite Hbody. eexists. split; [reflexivity|]. cbn. lia.
      * destruct Hbody as (w1 & -> & Hsp & _).
        set (b := IsMalicious _) in *.
        destruct (narrow_Window size l b fits Hw Hg)
          as (_ & Hw1 & _ & _ & _ & Hd).
        rewrite pow2_succ in Hj.
        destruct (IH fuel (narrow b l) w1 Hw1 ltac:(lia) ltac:(lia))
          as (r & Hr & Hn).
        exists r. split; [assumption|].
        rewrite Hsp, length_app in Hn. cbn in Hn. lia.
    + exists (Return l w). split; [|cbn; lia].
      destruct fuel; cbn [loop]; now rewrite Hg.
Qed.

End Search.

Lemma slice_in_bounds (b : list Byte.byte) (lo hi : Z) :
  0 <= lo <= hi -> hi <= goint.len b ->
  slice b lo hi
  = Some (firstn (Z.to_nat (hi - lo)) (skipn (Z.to_nat lo) b)).
Proof.
  intros H1 H2. unfold slice.
  destruct (0 <=? lo) eqn:E0; [|lia].
  destruct (lo <=? hi) eqn:E1; [|lia].
  destruct (hi <=? goint.len b) eqn:E2; [|lia]. reflexivity.
Qed.

(** The dumped window of a search window: 32 bytes on each side of
    [lastGood] and [mid], cut at the ends of the file. *)
Lemma window_clamped (size : Z) (l : Locals) :
  size <= goint.max_len -> Window size l ->
  window l size
  = (Z.max 0 (lastGood l - 32), Z.min size (mid l + 32))
  /\ lastGood l <= mid l <= upperBound l.
Proof.
  intros Hsize [H0 H1 H2 Hmid _ _].
  assert (Hm : lastGood l <= mid l <= upperBound l).
  { rewrite Hmid. pose proof (Z.div_mod (lastGood l + upperBound l) 2).
    pose proof (Z.mod_pos_bound (lastGood l + upperBound l) 2). lia. }
  split; [|assumption]. unfold window.
  rewrite sub_small, add_small by (int_range; lia). f_equal.
  - destruct (lastGood l - 32 <? 0) eqn:E; lia.
  - destruct (size <? mid l + 32) eqn:E; lia.
Qed.

Lemma report_cases (original_file : list Byte.byte) (l : Locals) (w : World) :
  goint.len original_file <= goint.max_len ->
  Window (goint.len original_file) l ->
  let size := goint.len original_file in
  let start := Z.max 0 (lastGood l - 32) in
  let end_ := Z.min size (mid l + 32) in
  0 <= start <= end_ /\ end_ <= size
  /\ exists threatData,
       slice original_file start end_ = Some threatData
       /\ report original_file size l w
          = if threatFound l then
              Return tt
                (print (map ErrThreat (uniqueThreats (threat_list w)))
                   (print [HexDump threatData]
                      (print [NewLine; OkElapsed;
                              ErrIsolated (lastGood l) (lastGood l) size] w)))
            else Return tt (print [InfoNotMalicious] w).
Proof.
  intros Hfits Hw size start end_.
  destruct (window_clamped size l Hfits Hw) as [Hwin Hm].
  pose proof Hw as [H0 H1 H2 _ _ _].
  assert (Hb : 0 <= start <= end_ /\ end_ <= size) by (subst start end_; lia).
  split; [tauto|]. split; [tauto|].
  eexists. split; [apply slice_in_bounds; tauto|].
  unfold report. fold size. rewrite Hwin. fold start end_.
  rewrite slice_in_bounds by tauto. reflexivity.
Qed.

(** C3.  Whatever the scanner answers, the loop ends: enough fuel is the
    ceiling of [log2] of the file's length.  It has then started at most
    [ceil(log2 N) + 1] scans, and when it ends normally after at least one
    iteration the bounds are one byte apart. *)
Theorem loop_terminates (os : OS) (original_file : list Byte.byte)
    (testFilePath scanPath : string) (debug : bool) (w : World) (fuel : nat) :
  goint.len original_file <= goint.max_len ->
  (Z.to_nat (Z.log2_up (goint.len original_file)) <= fuel)%nat ->
  exists r,
    loop os original_file testFilePath scanPath debug fuel
      (initial original_file) w = Some r
    /\ Z.of_nat (List.length (spawned (world_of r)))
       - Z.of_nat (List.length (spawned w))
       <= Z.log2_up (goint.len original_file) + 1
    /\ match r with
       | Return l w' =>
           exists k,
             steps os original_file testFilePath scanPath debug k
               (initial original_file) w = Some (l, w')
             /\ spawned w'
                = spawned w ++ repeat (scan_command testFilePath scanPath) k
             /\ guard l = false
             /\ (k <> 0%nat -> upperBound l - lastGood l = 1)
       | Error _ _ => True
       | Panic _ => False
       end.
Proof.
  intros Hfits Hfuel.
  pose proof (initial_Window original_file Hfits) as Hw.
  destruct (loop_total os original_file testFilePath scanPath debug Hfits
              (Z.to_nat (Z.log2_up (goint.len original_file)))
              fuel (initial original_file) w Hw)
    as (r & Hr & Hn); [|assumption|].
  { cbn [initial upperBound lastGood]. rewrite Z.sub_0_r.
    apply log2_up_bound. }
  exists r. split; [assumption|]. split.
  { pose proof (Z.log2_up_nonneg (goint.len original_file)). lia. }
  destruct r as [l w'|e w'|w'].
  - destruct (loop_steps _ _ _ _ _ _ _ _ _ _ Hr) as (k & _ & Hsteps & Hg).
    destruct (steps_Window _ _ _ _ _ Hfits _ _ _ _ _ Hw Hsteps)
      as (Hw' & _ & _ & Hk & Hsp & _).
    exists k. repeat split; try assumption.
    intros Hk0. specialize (Hk Hk0).
    rewrite (guard_width _ _ Hfits Hw') in Hg. apply Z.ltb_ge in Hg. lia.
  - exact I.
  - now apply (loop_no_panic _ _ _ _ _ Hfits _ _ _ _ Hw) in Hr.
Qed.

Lemma loop_terminates_witness :
  exists r,
    loop (threshold_scanner 3 sample_report) four_bytes
      "kaspersky\testfile.exe" "avp.com" false 2 (initial four_bytes)
      (world_with "sample.exe" four_bytes) = Some r
    /\ match r with
       | Return l _ => upperBound l - lastGood l = 1
       | _ => False
       end.
Proof.
  destruct (loop_terminates (threshold_scanner 3 sample_report) four_bytes
              "kaspersky\testfile.exe" "avp.com" false
              (world_with "sample.exe" four_bytes) 2)
    as (r & Hr & _ & Hend).
  - vm_compute. discriminate.
  - vm_compute. lia.
  - exists r. split; [exact Hr|]. destruct r as [l w'|e w'|w'].
    + destruct Hend as (k & Hsteps & _ & _ & Hone). apply Hone.
      intros ->. cbn [steps] in Hsteps. injection Hsteps as <- _.
      vm_compute in Hr. discriminate.
    + vm_compute in Hr. discriminate.
    + exact Hend.
Defined.

(** C2.  At the head of every iteration that scans, the window satisfies
    [0 <= lastGood < mid <= upperBound <= len(original_file)] (and the
    scanned slice starts at offset 0); from any iteration to any later one
    [lastGood] does not decrease and [upperBound] does not increase. *)
Theorem window_invariant (os : OS) (original_file : list Byte.byte)
    (testFilePath scanPath : string) (debug : bool) (w : World)
    (k j : nat) (l l2 : Locals) (w1 w2 : World) :
  goint.len original_file <= goint.max_len ->
  steps os original_file testFilePath scanPath debug k
    (initial original_file) w = Some (l, w1) ->
  steps os original_file testFilePath scanPath debug j l w1 = Some (l2, w2) ->
  (guard l = true ->
   0 <= lastGood l /\ lastGood l < mid l /\ mid l <= upperBound l
   /\ upperBound l <= goint.len original_file /\ tf_lower l = 0)
  /\ lastGood l <= lastGood l2
  /\ upperBound l2 <= upperBound l.
Proof.
  intros Hfits Hk Hj.
  pose proof (initial_Window original_file Hfits) as Hw.
  destruct (steps_Window _ _ _ _ _ Hfits _ _ _ _ _ Hw Hk) as (Hwl & _).
  destruct (steps_Window _ _ _ _ _ Hfits _ _ _ _ _ Hwl Hj)
    as (_ & Hlg & Hub & _).
  split; [|now split].
  intros Hg. destruct (narrow_Window _ l true Hfits Hwl Hg) as (Hm & _).
  destruct Hwl as [H0 H1 H2 _ Hfrom _]. repeat split; try assumption; lia.
Qed.

Lemma window_invariant_witness :
  let l := {| lastGood := 2; upperBound := 4; mid := 3;
              threatFound := false; tf_lower := 0 |} in
  let l2 := {| lastGood := 2; upperBound := 3; mid := 2;
               threatFound := true; tf_lower := 0 |} in
  (guard l = true ->
   0 <= lastGood l /\ lastGood l < mid l /\ mid l <= upperBound l
   /\ upperBound l <= goint.len four_bytes /\ tf_lower l = 0)
  /\ lastGood l <= lastGood l2
  /\ upperBound l2 <= upperBound l.
Proof.
  intros l l2.
  destruct (steps (threshold_scanner 3 sample_report) four_bytes
              "kaspersky\testfile.exe" "avp.com" false 1
              (initial four_bytes) (world_with "sample.exe" four_bytes))
    as [[l' w1]|] eqn:H1; [|vm_compute in H1; discriminate].
  destruct (steps (threshold_scanner 3 sample_report) four_bytes
              "kaspersky\testfile.exe" "avp.com" false 1 l' w1)
    as [[l2' w2]|] eqn:H2.
  - assert (l' = l) as El by (vm_compute in H1; now injection H1 as <- _).
    assert (l2' = l2) as El2.
    { revert H2. vm_compute in H1. injection H1 as <- <-.
      vm_compute. now intros [= <- _]. }
    subst l' l2'.
    apply (window_invariant (threshold_scanner 3 sample_report) four_bytes
             "kaspersky\testfile.exe" "avp.com" false
             (world_with "sample.exe" four_bytes) 1 1 l l2 w1 w2);
      [vm_compute; discriminate|exact H1|exact H2].
  - exfalso. revert H2. vm_compute in H1. injection H1 as <- <-.
    vm_compute. discriminate.
Defined.

(** The run as a whole does not panic on a file that fits. *)
Lemma KasperskyRun_no_panic (fuel : nat) (os : OS) (file scanPath : string)
    (debug : bool) (w w' : World) (original_file : list Byte.byte) :
  fs w file = Some original_file ->
  goint.len original_file <= goint.max_len ->
  KasperskyRun fuel os file scanPath debug w <> Some (Panic w').
Proof.
  intros Hfile Hfits. unfold KasperskyRun, ReadFile.
  destruct (io_error os (now w) file) as [err|]; [discriminate|].
  rewrite Hfile. unfold Scan.
  destruct (IsMalicious _); [|discriminate].
  match goal with
  | |- context [loop ?o ?b ?t ?s ?d fuel ?l ?w0] =>
      destruct (loop o b t s d fuel l w0) as [[l1 w1|e w1|w1]|] eqn:Hloop
  end; try discriminate.
  - destruct (loop_steps _ _ _ _ _ _ _ _ _ _ Hloop) as (k & _ & Hsteps & _).
    destruct (steps_Window _ _ _ _ _ Hfits _ _ _ _ _
                (initial_Window original_file Hfits) Hsteps) as (Hw1 & _).
    match goal with
    | |- context [report ?b ?s ?l ?w0] =>
        destruct (report_cases b l w0 Hfits Hw1) as (_ & _ & data & _ & ->)
    end.
    destruct (threatFound l1); discriminate.
  - now apply (loop_no_panic _ _ _ _ _ Hfits _ _ _ _
                 (initial_Window original_file Hfits)) in Hloop.
Qed.

(** C10.  Every slice of the file is taken inside it: the slice scanned
    in an iteration has [0 <= tf_lower <= mid <= len(original_file)], the
    bounds of the dumped window have [0 <= start <= end <= len], and no
    run panics, for a file of any length that a slice can have and any
    answers of the scanner. *)
Theorem slices_in_bounds (os : OS) (file scanPath : string) (debug : bool)
    (w : World) (original_file : list Byte.byte) :
  fs w file = Some original_file ->
  goint.len original_file <= goint.max_len ->
  let size := goint.len original_file in
  let testFilePath := Join (Join "." "kaspersky") "testfile.exe" in
  (forall k l w0 w1,
     steps os original_file testFilePath scanPath debug k
       (initial original_file) w0 = Some (l, w1) ->
     guard l = true ->
     0 <= tf_lower l /\ tf_lower l <= mid l /\ mid l <= size
     /\ slice original_file (tf_lower l) (mid l) <> None)
  /\ (forall fuel l w0 w1,
        loop os original_file testFilePath scanPath debug fuel
          (initial original_file) w0 = Some (Return l w1) ->
        0 <= fst (window l size)
        /\ fst (window l size) <= snd (window l size)
        /\ snd (window l size) <= size
        /\ slice original_file (fst (window l size)) (snd (window l size))
           <> None)
  /\ (forall fuel w',
        KasperskyRun fuel os file scanPath debug w <> Some (Panic w')).
Proof.
  intros Hfile Hfits size testFilePath. subst size.
  pose proof (initial_Window original_file Hfits) as Hw.
  split; [|split].
  - intros k l w0 w1 Hsteps Hg.
    destruct (steps_Window _ _ _ _ _ Hfits _ _ _ _ _ Hw Hsteps) as (Hwl & _).
    destruct (narrow_Window _ l true Hfits Hwl Hg) as (Hm & _).
    destruct Hwl as [H0 H1 H2 _ Hfrom _]. rewrite Hfrom.
    repeat split; try lia.
    destruct (slice_prefix original_file (mid l)) as [-> _];
      [lia|discriminate].
  - intros fuel l w0 w1 Hloop.
    destruct (loop_steps _ _ _ _ _ _ _ _ _ _ Hloop) as (k & _ & Hsteps & _).
    destruct (steps_Window _ _ _ _ _ Hfits _ _ _ _ _ Hw Hsteps) as (Hwl & _).
    destruct (window_clamped _ l Hfits Hwl) as [-> _]. cbn [fst snd].
    destruct (report_cases original_file l w1 Hfits Hwl)
      as (Hb & Hb' & data & -> & _).
    repeat split; try tauto. discriminate.
  - intros fuel w'. now apply (KasperskyRun_no_panic _ _ _ _ _ _ _ _ Hfile).
Qed.

Lemma slices_in_bounds_witness :
  match
    KasperskyRun 2 (threshold_scanner 3 sample_report) "sample.exe"
      "avp.com" false (world_with "sample.exe" four_bytes)
  with
  | Some (Return _ _) => True
  | _ => False
  end.
Proof.
  destruct (slices_in_bounds (threshold_scanner 3 sample_report)
              "sample.exe" "avp.com" false
              (world_with "sample.exe" four_bytes) four_bytes)
    as (_ & _ & Hrun); [reflexivity|vm_compute; discriminate|].
  specialize (Hrun 2%nat).
  destruct (KasperskyRun 2 (threshold_scanner 3 sample_report) "sample.exe"
              "avp.com" false (world_with "sample.exe" four_bytes))
    as [[u w'|e w'|w']|] eqn:E.
  - exact I.
  - vm_compute in E. discriminate.
  - exact (Hrun w' eq_refl).
  - vm_compute in E. discriminate.
Defined.

(** C5 (as amended).  When an iteration was malicious the loop ends with
    [mid = lastGood = upperBound - 1]; the report prints [lastGood] as the
    offset and dumps the bytes
    [original_file[max(0, lastGood-32) : min(len, mid+32)]], a window that
    ends 32 bytes after [lastGood]. *)
Theorem report_window (os : OS) (original_file : list Byte.byte)
    (testFilePath scanPath : string) (debug : bool) (fuel : nat)
    (w w1 w2 : World) (l : Locals) :
  goint.len original_file <= goint.max_len ->
  loop os original_file testFilePath scanPath debug fuel
    (initial original_file) w = Some (Return l w1) ->
  threatFound l = true ->
  let size := goint.len original_file in
  mid l = lastGood l
  /\ upperBound l = lastGood l + 1
  /\ exists threatData,
       slice original_file (Z.max 0 (lastGood l - 32))
         (Z.min size (lastGood l + 32)) = Some threatData
       /\ report original_file size l w2
          = Return tt
              (print (map ErrThreat (uniqueThreats (threat_list w2)))
                 (print [HexDump threatData]
                    (print [NewLine; OkElapsed;
                            ErrIsolated (lastGood l) (lastGood l) size] w2))).
Proof.
  intros Hfits Hloop Hfound size. subst size.
  destruct (loop_steps _ _ _ _ _ _ _ _ _ _ Hloop) as (k & _ & Hsteps & Hg).
  destruct (steps_Window _ _ _ _ _ Hfits _ _ _ _ _
              (initial_Window original_file Hfits) Hsteps) as (Hw & _).
  rewrite (guard_width _ _ Hfits Hw) in Hg. apply Z.ltb_ge in Hg.
  pose proof (window_found _ _ Hw Hfound) as Hlt.
  assert (Hub : upperBound l = lastGood l + 1) by lia.
  assert (Hmid : mid l = lastGood l).
  { rewrite (window_mid _ _ Hw), Hub.
    replace (lastGood l + (lastGood l + 1)) with (1 + lastGood l * 2) by lia.
    rewrite Z.div_add by lia. reflexivity. }
  split; [assumption|]. split; [assumption|].
  destruct (report_cases original_file l w2 Hfits Hw)
    as (_ & _ & data & Hslice & Hrep).
  rewrite Hfound, Hmid in *. now exists data.
Qed.

Lemma report_window_witness :
  match
    loop (threshold_scanner 3 sample_report) four_bytes
      "kaspersky\testfile.exe" "avp.com" false 2 (initial four_bytes)
      (world_with "sample.exe" four_bytes)
  with
  | Some (Return l _) => mid l = lastGood l /\ upperBound l = lastGood l + 1
  | _ => False
  end.
Proof.
  destruct (loop (threshold_scanner 3 sample_report) four_bytes
              "kaspersky\testfile.exe" "avp.com" false 2 (initial four_bytes)
              (world_with "sample.exe" four_bytes))
    as [[l w1|e w1|w1]|] eqn:Hloop;
    try (vm_compute in Hloop; discriminate).
  assert (Hfound : threatFound l = true)
    by (vm_compute in Hloop; now injection Hloop as <- _).
  destruct (report_window (threshold_scanner 3 sample_report) four_bytes
              "kaspersky\testfile.exe" "avp.com" false 2
              (world_with "sample.exe" four_bytes) w1 w1 l
              ltac:(vm_compute; discriminate) Hloop Hfound)
    as (Hmid & Hub & _).
  now split.
Defined.

(** C5 as first stated fails on the end of the window: for a file of 70
    bytes flagged from 3 bytes on, the search ends with [lastGood = 2] and
    [upperBound = 3] and dumps the 34 bytes [0:34], while
    [max(0, lastGood-32) : min(len, upperBound+32)] is the 35 bytes
    [0:35]. *)
Lemma report_window_not_upperBound :
  match
    loop (threshold_scanner 3 sample_report) seventy_bytes
      "kaspersky\testfile.exe" "avp.com" false 7 (initial seventy_bytes)
      (world_with "sample.exe" seventy_bytes)
  with
  | Some (Return l w1) =>
      threatFound l = true /\ lastGood l = 2 /\ upperBound l = 3
      /\ exists threatData claimed,
           report seventy_bytes 70 l w1
           = Return tt
               (print (map ErrThreat (uniqueThreats (threat_list w1)))
                  (print [HexDump threatData]
                     (print [NewLine; OkElapsed; ErrIsolated 2 2 70] w1)))
           /\ slice seventy_bytes (Z.max 0 (lastGood l - 32))
                (Z.min (goint.len seventy_bytes) (upperBound l + 32))
              = Some claimed
           /\ List.length threatData = 34%nat
           /\ List.length claimed = 35%nat
           /\ threatData <> claimed
  | _ => False
  end.
Proof.
  vm_compute. repeat split.
  do 2 eexists. repeat split; try reflexivity. discriminate.
Qed.

(** C8.  For a file of one byte whose scan is malicious the loop
    condition is false from the start, whatever the fuel: no iteration
    runs, the only scan is that of the whole file, and the run prints
    "Not malicious" after "Threat detected in the original file". *)
Theorem one_byte_file (os : OS) (file scanPath : string) (debug : bool)
    (w : World) (b : Byte.byte) (fuel : nat) :
  fs w file = Some [b] ->
  io_error os (now w) file = None ->
  IsMalicious
    (stdout_of (exec os (S (now w)) scanPath
                  ["SCAN"; file; "/i0"]%string (fs w))) = true ->
  guard (initial [b]) = false
  /\ (forall testFilePath w0,
        loop os [b] testFilePath scanPath debug fuel (initial [b]) w0
        = Some (Return (initial [b]) w0))
  /\ exists w',
       KasperskyRun fuel os file scanPath debug w = Some (Return tt w')
       /\ console w'
          = console w ++ [NewLine; ErrThreatDetected; InfoNotMalicious]
       /\ spawned w' = spawned w ++ [scan_command file scanPath].
Proof.
  intros Hfile Hio Hmal.
  assert (Hg : guard (initial [b]) = false) by reflexivity.
  assert (Hloop : forall testFilePath w0,
             loop os [b] testFilePath scanPath debug fuel (initial [b]) w0
             = Some (Return (initial [b]) w0)).
  { intros testFilePath w0. destruct fuel; cbn [loop]; now rewrite Hg. }
  split; [assumption|]. split; [assumption|].
  unfold KasperskyRun, ReadFile. rewrite Hio, Hfile. unfold Scan.
  cbn [now fs tick set_progressUpdates set_threats]. rewrite Hmal, Hloop.
  eexists. split; [reflexivity|].
  unfold send_threat_name, collector_turn, recv, send, make.
  cbn. rewrite <- !app_assoc. now split.
Qed.

Lemma one_byte_file_witness :
  exists w',
    KasperskyRun 0 (threshold_scanner 1 sample_report) "sample.exe" "avp.com"
      false (world_with "sample.exe" [Byte.x4d]) = Some (Return tt w')
    /\ console w' = [NewLine; ErrThreatDetected; InfoNotMalicious]
    /\ spawned w' = [scan_command "sample.exe" "avp.com"].
Proof.
  apply (one_byte_file (threshold_scanner 1 sample_report) "sample.exe"
           "avp.com" false (world_with "sample.exe" [Byte.x4d]) Byte.x4d 0);
    reflexivity.
Defined.

(** ** A scanner that flags the prefixes of at least [T] bytes *)

Section Threshold.

Variable os : OS.
Variable original_file : list Byte.byte.
Variable testFilePath scanPath : string.
Variable debug : bool.
Variable T : Z.

Hypothesis fits : goint.len original_file <= goint.max_len.
Hypothesis writes : forall n, io_error os n testFilePath = None.
Hypothesis oracle :
  forall n files data,
    files testFilePath = Some data ->
    IsMalicious
      (stdout_of (exec os n scanPath
                    ["SCAN"; testFilePath; "/i0"]%string files))
    = (T <=? goint.len data).

Lemma converge (j : nat) :
  forall (fuel : nat) (l : Locals) (w : World),
    Window (goint.len original_file) l ->
    lastGood l < T <= upperBound l ->
    upperBound l - lastGood l <= 2 ^ Z.of_nat j ->
    (j <= fuel)%nat ->
    exists l' w',
      loop os original_file testFilePath scanPath debug fuel l w
      = Some (Return l' w')
      /\ lastGood l' = T - 1 /\ upperBound l' = T.
Proof.
  induction j as [|j IH]; intros fuel l w Hw HT Hj Hfuel;
    destruct (guard l) eqn:Hg.
  - rewrite (guard_width _ _ fits Hw) in Hg. apply Z.ltb_lt in Hg.
    simpl in Hj. lia.
  - exists l, w. rewrite (guard_width _ _ fits Hw) in Hg.
    apply Z.ltb_ge in Hg.
    split; [|lia]. apply Z.ltb_ge in Hg.
    rewrite <- (guard_width _ _ fits Hw) in Hg.
    destruct fuel; cbn [loop]; now rewrite Hg.
  - destruct fuel as [|fuel]; [lia|]. cbn [loop]. rewrite Hg.
    pose proof (body_cases os original_file testFilePath scanPath debug
                  fits l w Hw Hg) as Hbody.
    rewrite writes in Hbody. destruct Hbody as (w1 & -> & _).
    destruct (narrow_Window _ l true fits Hw Hg) as ((Hlo & Hhi) & _).
    pose proof Hw as [H0 H1 H2 _ _ _].
    destruct (slice_prefix original_file (mid l)) as [_ Hlen]; [lia|].
    unfold iteration_output.
    rewrite oracle
      with (data := firstn (Z.to_nat (mid l)) original_file);
      [|unfold written; now rewrite String.eqb_refl].
    rewrite Hlen.
    destruct (narrow_Window _ l (T <=? mid l) fits Hw Hg)
      as (_ & Hw1 & _ & _ & _ & Hd).
    rewrite pow2_succ in Hj.
    apply IH; [assumption| |lia|lia].
    destruct (T <=? mid l) eqn:E; cbn [narrow lastGood upperBound]; lia.
  - exists l, w. rewrite (guard_width _ _ fits Hw) in Hg.
    apply Z.ltb_ge in Hg.
    split; [|lia]. apply Z.ltb_ge in Hg.
    rewrite <- (guard_width _ _ fits Hw) in Hg.
    destruct fuel; cbn [loop]; now rewrite Hg.
Qed.

End Threshold.

(** C1.  When the scanner flags exactly the prefixes of at least [T]
    bytes, [0 < T <= N], and the scratch file can be written, the loop
    ends with [lastGood = T - 1] and [upperBound = T]: the longest clean
    prefix and the shortest flagged one. *)
Theorem bisection_converges (os : OS) (original_file : list Byte.byte)
    (testFilePath scanPath : string) (debug : bool) (T : Z) (w : World)
    (fuel : nat) :
  goint.len original_file <= goint.max_len ->
  0 < T <= goint.len original_file ->
  (forall n, io_error os n testFilePath = None) ->
  (forall n files data,
     files testFilePath = Some data ->
     IsMalicious
       (stdout_of (exec os n scanPath
                     ["SCAN"; testFilePath; "/i0"]%string files))
     = (T <=? goint.len data)) ->
  (Z.to_nat (Z.log2_up (goint.len original_file)) <= fuel)%nat ->
  exists l w',
    loop os original_file testFilePath scanPath debug fuel
      (initial original_file) w = Some (Return l w')
    /\ lastGood l = T - 1 /\ upperBound l = T.
Proof.
  intros Hfits HT Hwrites Horacle Hfuel.
  apply (converge os original_file testFilePath scanPath debug T Hfits
           Hwrites Horacle (Z.to_nat (Z.log2_up (goint.len original_file))));
    [now apply initial_Window| | |assumption].
  - cbn [initial lastGood upperBound]. lia.
  - cbn [initial lastGood upperBound]. rewrite Z.sub_0_r.
    apply log2_up_bound.
Qed.

Lemma threshold_scanner_oracle (T : Z) (scanPath testFilePath : string) :
  forall n files data,
    files testFilePath = Some data ->
    IsMalicious
      (stdout_of (exec (threshold_scanner T sample_report) n scanPath
                    ["SCAN"; testFilePath; "/i0"]%string files))
    = (T <=? goint.len data).
Proof.
  intros n files data Hfile. cbn [threshold_scanner exec]. rewrite Hfile.
  now destruct (T <=? goint.len data).
Qed.

Lemma bisection_converges_witness :
  exists l w',
    loop (threshold_scanner 700 sample_report) (repeat Byte.x00 1024)
      "kaspersky\testfile.exe" "avp.com" false 10
      (initial (repeat Byte.x00 1024))
      (world_with "sample.exe" (repeat Byte.x00 1024)) = Some (Return l w')
    /\ lastGood l = 699 /\ upperBound l = 700.
Proof.
  apply (bisection_converges (threshold_scanner 700 sample_report)
           (repeat Byte.x00 1024) "kaspersky\testfile.exe" "avp.com" false
           700 (world_with "sample.exe" (repeat Byte.x00 1024)) 10).
  - vm_compute. discriminate.
  - vm_compute. split; [reflexivity|discriminate].
  - reflexivity.
  - apply threshold_scanner_oracle.
  - vm_compute. lia.
Defined.

(** ** What reaches the threat collector *)

(** An iteration sends nothing on [threat_names], however it ends. *)
Lemma body_keeps_threats (os : OS) (original_file : list Byte.byte)
    (testFilePath scanPath : string) (debug : bool) (l : Locals) (w : World) :
  let r := body os original_file testFilePath scanPath debug l w in
  threat_list (world_of r) = threat_list w
  /\ threat_names (world_of r) = threat_names w.
Proof.
  unfold body. destruct (slice _ _ _) as [data|]; [|now split].
  unfold WriteFile. destruct (io_error _ _ _) as [err|]; [now split|].
  unfold Scan.
  set (w2 := PrintDebug _ debug _).
  assert (H2 : threat_list w2 = threat_list w
               /\ threat_names w2 = threat_names w).
  { subst w2.
    match goal with
    | |- context [PrintDebug ?e debug ?w0] =>
        destruct (PrintDebug_frame e debug w0) as (_ & _ & _ & -> & ->)
    end. now split. }
  destruct H2 as [E1 E2].
  destruct (IsMalicious _); cbn [world_of];
    match goal with
    | |- context [PrintDebug ?e debug (send_progress os ?p ?w0)] =>
        destruct (PrintDebug_frame e debug (send_progress os p w0))
          as (_ & _ & _ & -> & ->);
        destruct (send_progress_frame os p w0) as (_ & _ & _ & -> & ->)
    end; now split.
Qed.

(** C4, on the code.  No iteration sends a signature to the threat
    collector.  For a file of two bytes and a scanner that names one
    threat for the whole file and another for the scratch file, the one
    iteration is malicious ([DebugThreat 0 1], then [upperBound = mid = 1])
    and its report carries the signature "HEUR:Backdoor.Win32.Agent", yet
    the collector holds only the signature of the first scan and the final
    report does not print the second. *)
Theorem iteration_signature_not_sent :
  (forall os original_file testFilePath scanPath debug l w,
     threat_list
       (world_of (body os original_file testFilePath scanPath debug l w))
     = threat_list w)
  /\ (forall n files,
        let output :=
          stdout_of (exec renaming_scanner n "avp.com"
                       ["SCAN"; "kaspersky\testfile.exe"; "/i0"]%string files)
        in
        IsMalicious output = true
        /\ GetSignature output = "HEUR:Backdoor.Win32.Agent"%string)
  /\ match
       KasperskyRun 1 renaming_scanner "sample.exe" "avp.com" true
         (world_with "sample.exe" [Byte.x4d; Byte.x5a])
     with
     | Some (Return _ w') =>
         console w'
         = [NewLine; ErrThreatDetected;
            DebugScanning 0 1; DebugThreat 0 1;
            NewLine; OkElapsed; ErrIsolated 0 0 2;
            HexDump [Byte.x4d; Byte.x5a];
            ErrThreat "HEUR:Trojan.Win32.Generic"]
         /\ threat_list w' = ["HEUR:Trojan.Win32.Generic"%string]
     | _ => False
     end.
Proof.
  split; [|split].
  - intros. apply body_keeps_threats.
  - intros n files. now vm_compute.
  - now vm_compute.
Qed.

(** ** The goroutines once their channels are closed *)

(** C9, on the code.  On a closed channel on which nothing was sent the
    progress reporter returns at its next turn, whichever case its
    [select] takes.  The threat collector does not: every receive
    yields the empty string at once, and after [n] turns it is still
    running, with [n] more empty strings in [threat_list]. *)
Theorem collector_never_returns :
  (forall tick, reporter_turn tick (close make) = Exit (close make, []))
  /\ (forall n threat_list,
        collector_run n (close make) threat_list
        = Continue (close make, threat_list ++ repeat EmptyString n))
  /\ match
       KasperskyRun 1 renaming_scanner "sample.exe" "avp.com" true
         (world_with "sample.exe" [Byte.x4d; Byte.x5a])
     with
     | Some (Return _ w') =>
         threat_names w' = close make /\ progressUpdates w' = close make
     | _ => False
     end.
Proof.
  split; [|split].
  - reflexivity.
  - induction n as [|n IH]; intros threat_list; cbn [collector_run repeat].
    + now rewrite app_nil_r.
    + unfold collector_turn. cbn. rewrite IH, <- app_assoc. reflexivity.
  - now vm_compute.
Qed.

(** * Further properties of the code *)

(** ** Finding the scanner *)

(** X1.  [FindKaspersky] never returns an error.  It returns [ScanPath]
    when [os.Stat] succeeds on it, without a call on the other path;
    [AltScanPath] when [os.Stat] fails on [ScanPath] and then succeeds on
    [AltScanPath]; and the empty path exactly when both calls fail. *)
Theorem FindKaspersky_first_existing
    (stat : nat -> string -> option error) (w : World) :
  let '((avp, err), w') := FindKaspersky stat w in
  err = None
  /\ (stat (now w) ScanPath = None -> avp = ScanPath /\ w' = tick w)
  /\ (stat (now w) ScanPath <> None ->
      stat (S (now w)) AltScanPath = None ->
      avp = AltScanPath /\ w' = tick (tick w))
  /\ (avp = EmptyString
      <-> stat (now w) ScanPath <> None
          /\ stat (S (now w)) AltScanPath <> None).
Proof.
  unfold FindKaspersky.
  cbn [first_existing CheckIfExists Stat now tick].
  destruct (stat (now w) ScanPath) as [e1|] eqn:H1.
  - destruct (stat (S (now w)) AltScanPath) as [e2|] eqn:H2.
    + repeat split; try discriminate; try congruence.
    + repeat split; try discriminate; try congruence.
      intros [_ H]. now elim H.
  - repeat split; try discriminate; try congruence.
    intros [H _]. now elim H.
Qed.

(** ** Lines and fields *)

Lemma Split_nonempty (s : string) (sep : ascii) : strings.Split s sep <> [].
Proof. destruct (Split_head s sep) as (l & ls & -> & _). discriminate. Qed.

Lemma concat_cons (sep x : string) (ls : list string) :
  ls <> [] ->
  String.concat sep (x :: ls) = (x ++ sep ++ String.concat sep ls)%string.
Proof. now destruct ls. Qed.

(** X2.  [strings.Split] loses nothing: the lines of a text, joined by
    the newline, are the text, and no line holds a newline. *)
Theorem Split_concat (s : string) :
  String.concat (String newline EmptyString) (strings.Split s newline) = s
  /\ Forall (fun line => has_byte newline line = false)
       (strings.Split s newline).
Proof.
  induction s as [|c s [IHc IHf]]; [split; [reflexivity|now repeat constructor]|].
  cbn [strings.Split]. destruct (Ascii.eqb c newline) eqn:Hc.
  - apply Ascii.eqb_eq in Hc as ->. split; [|now constructor].
    destruct (strings.Split s newline) as [|l ls] eqn:Hs;
      [now apply Split_nonempty in Hs|].
    rewrite concat_cons, IHc by discriminate. reflexivity.
  - destruct (strings.Split s newline) as [|l ls] eqn:Hs;
      [now apply Split_nonempty in Hs|].
    pose proof (Forall_inv IHf) as Hl. pose proof (Forall_inv_tail IHf) as Hls.
    cbn beta in Hl. split.
    + destruct ls as [|l2 ls]; [cbn in *; now rewrite IHc|].
      rewrite concat_cons in IHc |- * by discriminate.
      rewrite <- IHc. reflexivity.
    + constructor; [|assumption]. cbn [has_byte].
      rewrite Hl, orb_false_r. now rewrite Ascii.eqb_sym.
Qed.

Lemma find_none_existsb {A : Type} (f : A -> bool) (l : list A) :
  find f l = None -> existsb f l = false.
Proof.
  induction l as [|x l IH]; [reflexivity|]. cbn [find existsb].
  destruct (f x); [discriminate|]. exact IH.
Qed.

Lemma find_some_existsb {A : Type} (f : A -> bool) (l : list A) (x : A) :
  find f l = Some x -> existsb f l = true.
Proof.
  intros H. apply find_some in H as [Hin Hf]. apply existsb_exists. eauto.
Qed.

(** X3.  The result of [GetSignature] holds the marker "HEUR:" exactly
    when the text does: the sentinel "No signature found" is returned if
    and only if the marker is nowhere in the text, and cannot be mistaken
    for a signature. *)
Theorem GetSignature_marker (output : string) :
  strings.Contains (GetSignature output) "HEUR:"
  = strings.Contains output "HEUR:"
  /\ (GetSignature output = "No signature found"%string
      <-> strings.Contains output "HEUR:" = false).
Proof.
  rewrite <- (Contains_Split output "HEUR:" newline eq_refl).
  fold has_marker. change (fun line => strings.Contains line "HEUR:")
    with has_marker.
  unfold GetSignature. rewrite first_signature_find.
  destruct (find has_marker (strings.Split output newline)) as [line|] eqn:Hl.
  - rewrite (find_some_existsb _ _ _ Hl).
    apply find_some in Hl as [_ Hl].
    destruct (find_has_marker line Hl) as [part Hpart]. rewrite Hpart.
    apply find_some in Hpart as [_ Hpart]. split; [assumption|].
    split; [|discriminate]. intros ->. discriminate Hpart.
  - rewrite (find_none_existsb _ _ Hl). now split.
Qed.

(** ** The shape of a signature *)

Lemma has_ascii_space_app (a b : string) :
  has_ascii_space (a ++ b)
  = has_ascii_space a || has_ascii_space b.
Proof.
  induction a as [|c a IH]; [reflexivity|]. cbn [String.append has_ascii_space].
  now rewrite IH, orb_assoc.
Qed.

Lemma piece_of_refl (s : string) : piece_of s s.
Proof. exists EmptyString, EmptyString. now rewrite append_empty_r. Qed.

Lemma piece_of_trans (p q s : string) :
  piece_of p q -> piece_of q s -> piece_of p s.
Proof.
  intros (a & b & ->) (a' & b' & ->).
  exists (a' ++ a)%string, (b ++ b')%string.
  now rewrite !append_assoc.
Qed.

Lemma piece_of_cons (c : ascii) (p s : string) :
  piece_of p s -> piece_of p (String c s).
Proof. intros (a & b & ->). now exists (String c a), b. Qed.

(** The first line is a prefix of the text and the others are pieces. *)
Lemma Split_pieces (s : string) (sep : ascii) :
  exists l ls, strings.Split s sep = l :: ls
    /\ (exists b, s = (l ++ b)%string)
    /\ Forall (fun line => piece_of line s) ls.
Proof.
  induction s as [|c s (l & ls & Hsplit & (b & Hb) & Hls)].
  - exists EmptyString, []. repeat split; [now exists EmptyString|constructor].
  - cbn [strings.Split]. rewrite Hsplit. destruct (Ascii.eqb c sep).
    + exists EmptyString, (l :: ls). split; [reflexivity|].
      split; [now exists (String c s)|].
      constructor.
      * apply piece_of_cons. exists EmptyString, b. exact Hb.
      * eapply Forall_impl; [|exact Hls]. intros x. apply piece_of_cons.
    + exists (String c l), ls. split; [reflexivity|].
      split; [exists b; now rewrite Hb|].
      eapply Forall_impl; [|exact Hls]. intros x. apply piece_of_cons.
Qed.

Lemma Split_piece (s line : string) (sep : ascii) :
  In line (strings.Split s sep) -> piece_of line s.
Proof.
  destruct (Split_pieces s sep) as (l & ls & -> & (b & Hb) & Hls).
  intros [<-|Hin].
  - exists EmptyString, b. exact Hb.
  - now apply (proj1 (Forall_forall _ _) Hls).
Qed.

(** The fields are pieces of the string without white space, whenever the
    characters that [f] lets into a field have none. *)
Lemma spans_fields (dec : string -> Z * nat) (f : Z -> bool) :
  (forall s r size, s <> EmptyString -> dec s = (r, size) -> f r = false ->
     has_ascii_space (take size s) = false) ->
  forall fuel s cur part,
    has_ascii_space (field_of cur) = false ->
    In part (strings.spans dec f fuel s cur) ->
    has_ascii_space part = false /\ piece_of part (field_of cur ++ s).
Proof.
  intros Hdec.
  assert (Hflush : forall s cur part,
            has_ascii_space (field_of cur) = false ->
            In part (strings.flush cur) ->
            has_ascii_space part = false /\ piece_of part (field_of cur ++ s)).
  { intros s [fld|] part Hcur; cbn [strings.flush field_of In] in *;
      [|easy]. intros [<-|[]]. split; [assumption|].
    now exists EmptyString, s. }
  induction fuel as [|fuel IH]; intros s cur part Hcur Hin.
  - destruct s; now apply Hflush.
  - destruct s as [|c s]; [now apply Hflush|].
    cbn [strings.spans] in Hin.
    destruct (dec (String c s)) as [r size] eqn:Hd.
    pose proof (Hdec (String c s) r size ltac:(discriminate) Hd) as Hchunk.
    rewrite <- (take_skip size (String c s)).
    destruct (f r).
    + apply in_app_or in Hin as [Hin|Hin].
      * destruct (Hflush (String c s) cur part Hcur Hin) as [Hs Hp].
        split; [assumption|]. now rewrite take_skip.
      * destruct (IH _ None part eq_refl Hin) as [Hs (a & b & Hp)].
        split; [assumption|]. cbn [field_of String.append] in Hp.
        rewrite Hp.
        exists (field_of cur ++ take size (String c s) ++ a)%string, b.
        now rewrite !append_assoc.
    + assert (Hext : field_of (strings.extend cur (take size (String c s)))
                     = (field_of cur ++ take size (String c s))%string)
        by now destruct cur.
      destruct (IH _ _ part
                  ltac:(rewrite Hext, has_ascii_space_app, Hcur;
                        now apply Hchunk) Hin) as [Hs Hp].
      split; [assumption|]. now rewrite Hext, append_assoc in Hp.
Qed.

Lemma high_byte_not_space (c : ascii) :
  0x80 <= byteval c -> strings.asciiSpace (byteval c) = false.
Proof.
  intros H. unfold strings.asciiSpace.
  repeat match goal with
         | |- context [?a =? ?b] => destruct (Z.eqb_spec a b); [lia|]
         end. reflexivity.
Qed.

Lemma asciiSpace_IsSpace (r : Z) :
  unicode.IsSpace r = false -> strings.asciiSpace r = false.
Proof.
  unfold unicode.IsSpace, unicode.MaxLatin1, strings.asciiSpace.
  destruct (r <=? 0xFF) eqn:Hle.
  - rewrite !orb_false_iff. tauto.
  - intros _. apply Z.leb_gt in Hle.
    repeat match goal with
           | |- context [?a =? ?b] => destruct (Z.eqb_spec a b); [lia|]
           end. reflexivity.
Qed.

Lemma DecodeRune_field (s : string) (r : Z) (size : nat) :
  s <> EmptyString -> utf8.DecodeRuneInString s = (r, size) ->
  unicode.IsSpace r = false -> has_ascii_space (take size s) = false.
Proof.
  destruct s as [|c0 t0]; [easy|]. intros _. unfold utf8.DecodeRuneInString.
  destruct (byteval c0 <? utf8.RuneSelf) eqn:H0.
  - intros [= <- <-] Hsp. cbn [take has_ascii_space].
    now rewrite (asciiSpace_IsSpace _ Hsp).
  - unfold utf8.RuneSelf in H0.
    destruct (utf8.first (byteval c0)) as [[[sz lo] hi]|] eqn:Hf;
      [pose proof (first_accept _ _ _ _ Hf)|];
      repeat match goal with
             | |- context [match ?t with
                           | EmptyString => _
                           | String _ _ => _
                           end] => destruct t
             | |- context [if ?b then _ else _] => destruct b eqn:?
             end;
      intros [= <- <-] _; to_Z_facts; cbn [take has_ascii_space];
      rewrite ?high_byte_not_space by lia; reflexivity.
Qed.

Lemma Fields_fields (line part : string) :
  In part (strings.Fields line) ->
  has_ascii_space part = false /\ piece_of part line.
Proof.
  unfold strings.Fields, strings.FieldsFunc.
  destruct (strings.all_ascii line); intros Hin.
  - apply (spans_fields strings.byte_at_front strings.asciiSpace)
      with (cur := None) (fuel := String.length line); [|reflexivity|exact Hin].
    intros [|c s] r size Hs [= <- <-] Hf; [easy|].
    cbn [take has_ascii_space]. now rewrite Hf.
  - apply (spans_fields utf8.DecodeRuneInString unicode.IsSpace)
      with (cur := None) (fuel := String.length line); [|reflexivity|exact Hin].
    apply DecodeRune_field.
Qed.

(** X4.  When the text holds the marker, the signature returned is a
    piece of the text, cut out of one of its lines, that holds the marker
    and has no ASCII white space in it. *)
Theorem GetSignature_token (output : string) :
  strings.Contains output "HEUR:" = true ->
  piece_of (GetSignature output) output
  /\ has_ascii_space (GetSignature output) = false
  /\ has_byte newline (GetSignature output) = false
  /\ exists line,
       In line (strings.Split output newline)
       /\ In (GetSignature output) (strings.Fields line).
Proof.
  intros Hm.
  rewrite <- (Contains_Split output "HEUR:" newline eq_refl) in Hm.
  unfold GetSignature. rewrite first_signature_find.
  destruct (find has_marker (strings.Split output newline)) as [line|] eqn:Hl.
  - apply find_some in Hl as [Hline Hl].
    destruct (find_has_marker line Hl) as [part Hpart]. rewrite Hpart.
    apply find_some in Hpart as [Hin _].
    destruct (Fields_fields line part Hin) as [Hsp Hp].
    split; [|split; [assumption|split]].
    + apply (piece_of_trans part line output Hp).
      now apply Split_piece with (sep := newline).
    + clear -Hsp. induction part as [|c part IH]; [reflexivity|].
      cbn [has_ascii_space has_byte] in *.
      apply orb_false_elim in Hsp as [Hc Hrest]. rewrite (IH Hrest).
      destruct (Ascii.eqb_spec newline c) as [<-|]; [discriminate Hc|reflexivity].
    + now exists line.
  - apply find_none_existsb in Hl.
    change (fun line => strings.Contains line "HEUR:") with has_marker in Hm.
    congruence.
Qed.

Lemma GetSignature_token_witness :
  piece_of (GetSignature sample_report) sample_report
  /\ has_ascii_space (GetSignature sample_report) = false
  /\ has_byte newline (GetSignature sample_report) = false
  /\ exists line,
       In line (strings.Split sample_report newline)
       /\ In (GetSignature sample_report) (strings.Fields line).
Proof. apply (GetSignature_token sample_report). reflexivity. Defined.

(** ** What an iteration does to the world *)

Lemma send_progress_closed (os : OS) (p : Progress) (w : World) :
  closed (progressUpdates (send_progress os p w))
  = closed (progressUpdates w).
Proof.
  unfold send_progress, reporter_turn, recv, send.
  destruct (progressUpdates w) as [pend cl] eqn:E. cbn [pending closed].
  destruct (pend ++ [p]) as [|v q]; [destruct cl|]; cbn; now rewrite ?E.
Qed.

Lemma PrintDebug_progressUpdates (e : Event) (debug : bool) (w : World) :
  progressUpdates (PrintDebug e debug w) = progressUpdates w.
Proof. unfold PrintDebug. now destruct debug. Qed.

(** The three ways an iteration ends, with what each leaves behind. *)
Lemma body_effects (os : OS) (original_file : list Byte.byte)
    (testFilePath scanPath : string) (debug : bool) (l : Locals) (w : World) :
  match body os original_file testFilePath scanPath debug l w with
  | Panic w' =>
      w' = w /\ slice original_file (tf_lower l) (mid l) = None
  | Error e w' =>
      w' = tick w /\ io_error os (now w) testFilePath = Some e
  | Return l' w' =>
      exists data,
        slice original_file (tf_lower l) (mid l) = Some data
        /\ io_error os (now w) testFilePath = None
        /\ fs w' = written testFilePath data (fs w)
        /\ closed (progressUpdates w') = closed (progressUpdates w)
  end.
Proof.
  unfold body. destruct (slice _ _ _) as [data|]; [|now split].
  unfold WriteFile. destruct (io_error _ _ _) as [err|]; [now split|].
  unfold Scan. destruct (IsMalicious _); exists data;
    (split; [reflexivity|]); (split; [reflexivity|]);
    match goal with
    | |- context [PrintDebug ?e debug (send_progress os ?p ?w0)] =>
        rewrite (PrintDebug_progressUpdates e debug (send_progress os p w0));
        rewrite (send_progress_closed os p w0);
        destruct (PrintDebug_frame e debug (send_progress os p w0))
          as (-> & _);
        destruct (send_progress_frame os p w0) as (-> & _)
    end;
    cbn [fs progressUpdates tick spawn];
    match goal with
    | |- context [PrintDebug ?e debug ?w0] =>
        rewrite (PrintDebug_progressUpdates e debug w0);
        destruct (PrintDebug_frame e debug w0) as (-> & _)
    end; now split.
Qed.

Section Frame.

Variable os : OS.
Variable original_file : list Byte.byte.
Variable testFilePath scanPath : string.
Variable debug : bool.

(** However the loop ends, it has written to the scratch file only, has
    closed no channel and has sent nothing to the collector; an error is
    a failed write of the scratch file. *)
Lemma loop_frame (fuel : nat) :
  forall (l : Locals) (w : World) (r : Result Locals),
    loop os original_file testFilePath scanPath debug fuel l w = Some r ->
    (forall p, String.eqb p testFilePath = false ->
               fs (world_of r) p = fs w p)
    /\ closed (progressUpdates (world_of r)) = closed (progressUpdates w)
    /\ threat_names (world_of r) = threat_names w
    /\ threat_list (world_of r) = threat_list w
    /\ match r with
       | Error e _ => exists n, io_error os n testFilePath = Some e
       | _ => True
       end.
Proof.
  induction fuel as [|fuel IH]; intros l w r Hloop; cbn [loop] in Hloop;
    destruct (guard l); try discriminate;
    try (injection Hloop as <-; now repeat split).
  pose proof (body_effects os original_file testFilePath scanPath debug l w)
    as Heff.
  pose proof (body_keeps_threats os original_file testFilePath scanPath debug
                l w) as [Htl Htn].
  destruct (body os original_file testFilePath scanPath debug l w)
    as [l1 w1|e w1|w1]; cbn [world_of] in Htl, Htn.
  - destruct Heff as (data & _ & _ & Hfs & Hcl).
    destruct (IH _ _ _ Hloop) as (Hfs' & Hcl' & Htn' & Htl' & Herr).
    repeat split; try congruence.
    intros p Hp. rewrite (Hfs' p Hp), Hfs. unfold written. now rewrite Hp.
  - injection Hloop as <-. destruct Heff as [-> Hio].
    repeat split. now exists (now w).
  - injection Hloop as <-. destruct Heff as [-> _]. now repeat split.
Qed.

End Frame.

(** ** The run as a whole *)

Lemma send_threat_name_make (name : string) (w : World) :
  threat_names w = make -> threat_list w = [] ->
  send_threat_name name w = set_threats make [name] w.
Proof.
  intros Hn Hl. unfold send_threat_name, collector_turn, recv, send.
  now rewrite Hn, Hl.
Qed.

(** The run, once the file has been read: the first scan, then either
    the early return or the search, the clean-up and the report. *)
Lemma KasperskyRun_read (fuel : nat) (os : OS) (file scanPath : string)
    (debug : bool) (w : World) (original_file : list Byte.byte) :
  fs w file = Some original_file ->
  io_error os (now w) file = None ->
  let w0 :=
    print [NewLine]
      (tick (spawn (scan_command file scanPath)
               (set_threats make [] (set_progressUpdates make (tick w))))) in
  KasperskyRun fuel os file scanPath debug w
  = if IsMalicious (first_output os file scanPath w) then
      match
        loop os original_file "kaspersky\testfile.exe" scanPath debug fuel
          (initial original_file)
          (set_threats make
             [GetSignature (first_output os file scanPath w)]
             (print [ErrThreatDetected] w0))
      with
      | None => None
      | Some (Error err w1) => Some (Error err w1)
      | Some (Panic w1) => Some (Panic w1)
      | Some (Return l w1) =>
          match
            report original_file (goint.len original_file) l
              (RemoveAll os "kaspersky" w1)
          with
          | Return _ w2 => Some (Return tt (close_channels w2))
          | r => Some r
          end
      end
    else Some (Return tt (print [ErrNoThreatDetected] w0)).
Proof.
  intros Hfile Hio w0. unfold KasperskyRun, ReadFile. rewrite Hio, Hfile.
  unfold Scan. cbn [now fs tick set_progressUpdates set_threats].
  fold (first_output os file scanPath w).
  destruct (IsMalicious (first_output os file scanPath w)); [|reflexivity].
  rewrite send_threat_name_make by reflexivity. reflexivity.
Qed.

(** X5.  When the scan of the whole file is clean the run returns at
    once, with any fuel: it has started that one scan, printed a blank
    line and "No threat detected in the original file, dying now", written
    no file and sent no threat, and it leaves both channels open. *)
Theorem clean_file_returns_early (fuel : nat) (os : OS)
    (file scanPath : string) (debug : bool) (w : World)
    (original_file : list Byte.byte) :
  fs w file = Some original_file ->
  io_error os (now w) file = None ->
  IsMalicious (first_output os file scanPath w) = false ->
  exists w',
    KasperskyRun fuel os file scanPath debug w = Some (Return tt w')
    /\ console w' = console w ++ [NewLine; ErrNoThreatDetected]
    /\ spawned w' = spawned w ++ [scan_command file scanPath]
    /\ fs w' = fs w
    /\ threat_list w' = []
    /\ threat_names w' = make
    /\ progressUpdates w' = make.
Proof.
  intros Hfile Hio Hclean.
  rewrite (KasperskyRun_read fuel os file scanPath debug w original_file
             Hfile Hio), Hclean.
  eexists. split; [reflexivity|]. cbn. rewrite <- app_assoc. now repeat split.
Qed.

Lemma clean_file_returns_early_witness :
  exists w',
    KasperskyRun 0 (threshold_scanner 5 sample_report) "sample.exe"
      "avp.com" true (world_with "sample.exe" four_bytes)
    = Some (Return tt w')
    /\ console w' = [NewLine; ErrNoThreatDetected]
    /\ spawned w' = [scan_command "sample.exe" "avp.com"]
    /\ fs w' = fs (world_with "sample.exe" four_bytes)
    /\ threat_list w' = []
    /\ threat_names w' = make
    /\ progressUpdates w' = make.
Proof.
  apply (clean_file_returns_early 0 (threshold_scanner 5 sample_report)
           "sample.exe" "avp.com" true (world_with "sample.exe" four_bytes)
           four_bytes); reflexivity.
Defined.

Lemma ReadFile_cases (os : OS) (file : string) (w : World) :
  (exists e, ReadFile os file w = (inr e, tick w))
  \/ (exists data, ReadFile os file w = (inl data, tick w)
                   /\ fs w file = Some data
                   /\ io_error os (now w) file = None).
Proof.
  unfold ReadFile. destruct (io_error os (now w) file) as [e|]; [left; eauto|].
  destruct (fs w file) as [data|]; [right|left]; eauto.
Qed.

Lemma KasperskyRun_unread (fuel : nat) (os : OS) (file scanPath : string)
    (debug : bool) (w : World) (e : error) :
  ReadFile os file w = (inr e, tick w) ->
  KasperskyRun fuel os file scanPath debug w = Some (Error e (tick w)).
Proof. intros H. unfold KasperskyRun. now rewrite H. Qed.

(** The report prints and does nothing else; it returns no error. *)
Lemma report_frame (original_file : list Byte.byte) (size : Z) (l : Locals)
    (w : World) :
  let r := report original_file size l w in
  fs (world_of r) = fs w
  /\ progressUpdates (world_of r) = progressUpdates w
  /\ threat_names (world_of r) = threat_names w
  /\ spawned (world_of r) = spawned w
  /\ (forall e w', r <> Error e w').
Proof.
  unfold report. destruct (threatFound l); [|now repeat split].
  destruct (window l size) as [start end_].
  destruct (slice original_file start end_); now repeat split.
Qed.

(** X6.  An error returned by the run is the error of reading the file,
    returned before anything else is done, or the error of a write of the
    scratch file, returned with both channels still open.  Scanning never
    makes the run fail. *)
Theorem error_sources (fuel : nat) (os : OS) (file scanPath : string)
    (debug : bool) (w w' : World) (e : error) :
  KasperskyRun fuel os file scanPath debug w = Some (Error e w') ->
  (fst (ReadFile os file w) = inr e /\ w' = tick w)
  \/ ((exists n, io_error os n "kaspersky\testfile.exe" = Some e)
      /\ closed (threat_names w') = false
      /\ closed (progressUpdates w') = false).
Proof.
  intros Hrun.
  destruct (ReadFile_cases os file w) as [[e0 Hread]|(data & Hread & Hf & Hio)].
  - rewrite (KasperskyRun_unread _ _ _ _ _ _ _ Hread) in Hrun.
    injection Hrun as <- <-. left. now rewrite Hread.
  - right.
    rewrite (KasperskyRun_read fuel os file scanPath debug w data Hf Hio)
      in Hrun.
    destruct (IsMalicious _); [|discriminate].
    match type of Hrun with
    | context [loop ?o ?b ?t ?s ?d fuel ?l ?w0] =>
        destruct (loop o b t s d fuel l w0) as [[l1 w1|e1 w1|w1]|] eqn:Hloop
    end; try discriminate.
    + pose proof (report_frame data (goint.len data) l1
                    (RemoveAll os "kaspersky" w1)) as (_ & _ & _ & _ & Hne).
      destruct (report _ _ _ _) as [u w2|e2 w2|w2]; try discriminate.
      now elim (Hne e2 w2).
    + injection Hrun as <- <-.
      destruct (loop_frame _ _ _ _ _ _ _ _ _ Hloop)
        as (_ & Hcl & Htn & _ & Herr).
      cbn [world_of] in *. rewrite Hcl, Htn. now repeat split.
Qed.

Lemma error_sources_witness :
  exists n, io_error locked_scratch n "kaspersky\testfile.exe"
            = Some "access denied"%string.
Proof.
  destruct (KasperskyRun 1 locked_scratch "sample.exe" "avp.com" false
              (world_with "sample.exe" four_bytes))
    as [[u w'|e w'|w']|] eqn:Hrun;
    try (vm_compute in Hrun; discriminate).
  assert (He : e = "access denied"%string)
    by (vm_compute in Hrun; now injection Hrun as <- _).
  subst e.
  destruct (error_sources 1 locked_scratch "sample.exe" "avp.com" false
              (world_with "sample.exe" four_bytes) w' "access denied" Hrun)
    as [[Hread _]|[Hn _]].
  - vm_compute in Hread. discriminate.
  - exact Hn.
Defined.

(** X8.  Once the file has been read, the run closes its two channels
    exactly when it searches to the end: both are closed after a normal
    return that followed a malicious first scan, and both are open after
    the early return on a clean file, after an error and after a panic. *)
Theorem channels_closed_iff_searched (fuel : nat) (os : OS)
    (file scanPath : string) (debug : bool) (w : World)
    (original_file : list Byte.byte) (r : Result unit) :
  fs w file = Some original_file ->
  io_error os (now w) file = None ->
  KasperskyRun fuel os file scanPath debug w = Some r ->
  let searched :=
    match r with
    | Return _ _ => IsMalicious (first_output os file scanPath w)
    | _ => false
    end in
  closed (threat_names (world_of r)) = searched
  /\ closed (progressUpdates (world_of r)) = searched.
Proof.
  intros Hf Hio Hrun searched. subst searched.
  rewrite (KasperskyRun_read fuel os file scanPath debug w original_file
             Hf Hio) in Hrun.
  destruct (IsMalicious (first_output os file scanPath w));
    [|injection Hrun as <-; now split].
  match type of Hrun with
  | context [loop ?o ?b ?t ?s ?d fuel ?l ?w0] =>
      destruct (loop o b t s d fuel l w0) as [r1|] eqn:Hloop
  end; [|discriminate].
  destruct (loop_frame _ _ _ _ _ _ _ _ _ Hloop) as (_ & Hcl & Htn & _).
  destruct r1 as [l1 w1|e1 w1|w1]; cbn [world_of] in Hcl, Htn;
    try (injection Hrun as <-; cbn [world_of]; rewrite Hcl, Htn; now split).
  pose proof (report_frame original_file (goint.len original_file) l1
                (RemoveAll os "kaspersky" w1)) as (_ & Hrpu & Hrtn & _).
  destruct (report _ _ _ _) as [u w2|e2 w2|w2]; injection Hrun as <-;
    cbn [world_of] in *.
  - now split.
  - rewrite Hrpu, Hrtn. cbn [RemoveAll progressUpdates threat_names tick
                             set_fs]. rewrite Hcl, Htn. now split.
  - rewrite Hrpu, Hrtn. cbn [RemoveAll progressUpdates threat_names tick
                             set_fs]. rewrite Hcl, Htn. now split.
Qed.

Lemma channels_closed_iff_searched_witness :
  match
    KasperskyRun 2 (threshold_scanner 3 sample_report) "sample.exe"
      "avp.com" false (world_with "sample.exe" four_bytes)
  with
  | Some r =>
      closed (threat_names (world_of r)) = true
      /\ closed (progressUpdates (world_of r)) = true
  | None => False
  end.
Proof.
  destruct (KasperskyRun 2 (threshold_scanner 3 sample_report) "sample.exe"
              "avp.com" false (world_with "sample.exe" four_bytes))
    as [r|] eqn:Hrun; [|vm_compute in Hrun; discriminate].
  destruct (channels_closed_iff_searched 2
              (threshold_scanner 3 sample_report) "sample.exe" "avp.com"
              false (world_with "sample.exe" four_bytes) four_bytes r
              eq_refl eq_refl Hrun) as [H1 H2].
  destruct r as [u w'|e w'|w']; try (vm_compute in Hrun; discriminate).
  now split.
Defined.

(** ** How long the search lasts and what it scans *)

(** An iteration leaves at least half of the window, rounded down. *)
Lemma narrow_width_lower (size : Z) (l : Locals) (malicious : bool) :
  size <= goint.max_len -> Window size l -> guard l = true ->
  upperBound l - lastGood l
  <= 2 * (upperBound (narrow malicious l) - lastGood (narrow malicious l)) + 1.
Proof.
  intros Hsize Hw Hg. rewrite (guard_width size l Hsize Hw) in Hg.
  apply Z.ltb_lt in Hg. destruct Hw as [H0 H1 H2 Hmid _ _].
  assert (Hm : 2 * mid l <= lastGood l + upperBound l
               /\ lastGood l + upperBound l <= 2 * mid l + 1).
  { rewrite Hmid. pose proof (Z.div_mod (lastGood l + upperBound l) 2).
    pose proof (Z.mod_pos_bound (lastGood l + upperBound l) 2). lia. }
  destruct malicious; cbn [narrow lastGood upperBound]; lia.
Qed.

Section Count.

Variable os : OS.
Variable original_file : list Byte.byte.
Variable testFilePath scanPath : string.
Variable debug : bool.

Hypothesis fits : goint.len original_file <= goint.max_len.

(** A window of width at least [2^j] takes at least [j] iterations to
    close. *)
Lemma steps_at_least (k : nat) :
  forall (j : nat) (l : Locals) (w : World) (l' : Locals) (w' : World),
    Window (goint.len original_file) l ->
    2 ^ Z.of_nat j <= upperBound l - lastGood l ->
    steps os original_file testFilePath scanPath debug k l w = Some (l', w') ->
    guard l' = false -> (j <= k)%nat.
Proof.
  induction k as [|k IH]; intros j l w l' w' Hw Hj Hsteps Hg'.
  - injection Hsteps as <- <-. rewrite (guard_width _ _ fits Hw) in Hg'.
    apply Z.ltb_ge in Hg'. destruct j as [|j]; [lia|].
    rewrite pow2_succ in Hj. pose proof (Z.pow_pos_nonneg 2 (Z.of_nat j)). lia.
  - cbn [steps] in Hsteps. destruct (guard l) eqn:Hg; [|discriminate].
    pose proof (body_cases os original_file testFilePath scanPath debug
                  fits l w Hw Hg) as Hbody.
    destruct (io_error os (now w) testFilePath) as [err|];
      [now rewrite Hbody in Hsteps|].
    destruct Hbody as (w1 & Hb & _). rewrite Hb in Hsteps.
    set (b := IsMalicious _) in *.
    destruct (narrow_Window _ l b fits Hw Hg) as (_ & Hw1 & _).
    pose proof (narrow_width_lower _ l b fits Hw Hg) as Hlow.
    destruct j as [|j]; [lia|]. rewrite pow2_succ in Hj.
    apply le_n_S. apply (IH j _ w1 l' w' Hw1); [lia|exact Hsteps|exact Hg'].
Qed.

End Count.

(** X9.  The number of iterations of a search that ends normally does
    not depend on the verdicts beyond rounding: for a file of [N] bytes it
    is at least [floor(log2 N)] and at most [ceil(log2 N)], and each
    iteration starts exactly one scan of the scratch file. *)
Theorem iterations_between_logs (os : OS) (original_file : list Byte.byte)
    (testFilePath scanPath : string) (debug : bool) (fuel : nat)
    (w w' : World) (l : Locals) :
  goint.len original_file <= goint.max_len ->
  loop os original_file testFilePath scanPath debug fuel
    (initial original_file) w = Some (Return l w') ->
  exists k,
    spawned w' = spawned w ++ repeat (scan_command testFilePath scanPath) k
    /\ Z.log2 (goint.len original_file) <= Z.of_nat k
    /\ Z.of_nat k <= Z.log2_up (goint.len original_file).
Proof.
  intros Hfits Hloop.
  pose proof (initial_Window original_file Hfits) as Hw.
  destruct (loop_steps _ _ _ _ _ _ _ _ _ _ Hloop) as (k & _ & Hsteps & Hg).
  destruct (steps_Window _ _ _ _ _ Hfits _ _ _ _ _ Hw Hsteps)
    as (_ & _ & _ & _ & Hsp & _).
  exists k. split; [exact Hsp|]. split.
  - destruct (Z_lt_le_dec 0 (goint.len original_file)) as [Hpos|Hzero].
    + pose proof (steps_at_least os original_file testFilePath scanPath debug
                    Hfits k (Z.to_nat (Z.log2 (goint.len original_file)))
                    (initial original_file) w l w' Hw) as Hk.
      rewrite Z2Nat.id in Hk by apply Z.log2_nonneg.
      cbn [initial upperBound lastGood] in Hk. rewrite Z.sub_0_r in Hk.
      specialize (Hk (proj1 (Z.log2_spec _ Hpos)) Hsteps Hg).
      pose proof (Z.log2_nonneg (goint.len original_file)). lia.
    + rewrite Z.log2_nonpos by assumption. lia.
  - pose proof (steps_count os original_file testFilePath scanPath debug
                  Hfits k (Z.to_nat (Z.log2_up (goint.len original_file)))
                  (initial original_file) w l w' Hw) as Hk.
    cbn [initial upperBound lastGood] in Hk. rewrite Z.sub_0_r in Hk.
    specialize (Hk (log2_up_bound _) Hsteps).
    pose proof (Z.log2_up_nonneg (goint.len original_file)). lia.
Qed.

Lemma iterations_between_logs_witness :
  match
    loop (threshold_scanner 3 sample_report) seventy_bytes
      "kaspersky\testfile.exe" "avp.com" false 7 (initial seventy_bytes)
      (world_with "sample.exe" seventy_bytes)
  with
  | Some (Return _ w') =>
      exists k,
        spawned w'
        = repeat (scan_command "kaspersky\testfile.exe" "avp.com") k
        /\ 6 <= Z.of_nat k /\ Z.of_nat k <= 7
  | _ => False
  end.
Proof.
  destruct (loop (threshold_scanner 3 sample_report) seventy_bytes
              "kaspersky\testfile.exe" "avp.com" false 7
              (initial seventy_bytes) (world_with "sample.exe" seventy_bytes))
    as [[l w'|e w'|w']|] eqn:Hloop;
    try (vm_compute in Hloop; discriminate).
  exact (iterations_between_logs (threshold_scanner 3 sample_report)
           seventy_bytes "kaspersky\testfile.exe" "avp.com" false 7
           (world_with "sample.exe" seventy_bytes) w' l
           ltac:(vm_compute; discriminate) Hloop).
Defined.

Section Found.

Variable os : OS.
Variable original_file : list Byte.byte.
Variable testFilePath scanPath : string.
Variable debug : bool.

Hypothesis fits : goint.len original_file <= goint.max_len.

(** [threatFound] records that [upperBound] has moved. *)
Lemma steps_found (k : nat) :
  forall (l : Locals) (w : World) (l' : Locals) (w' : World),
    Window (goint.len original_file) l ->
    (threatFound l = true <-> upperBound l < goint.len original_file) ->
    steps os original_file testFilePath scanPath debug k l w = Some (l', w') ->
    (threatFound l' = true <-> upperBound l' < goint.len original_file).
Proof.
  induction k as [|k IH]; intros l w l' w' Hw Hl Hsteps.
  - now injection Hsteps as <- <-.
  - cbn [steps] in Hsteps. destruct (guard l) eqn:Hg; [|discriminate].
    pose proof (body_cases os original_file testFilePath scanPath debug
                  fits l w Hw Hg) as Hbody.
    destruct (io_error os (now w) testFilePath) as [err|];
      [now rewrite Hbody in Hsteps|].
    destruct Hbody as (w1 & Hb & _). rewrite Hb in Hsteps.
    set (b := IsMalicious _) in *.
    destruct (narrow_Window _ l b fits Hw Hg) as (Hmid & Hw1 & _).
    apply (IH (narrow b l) w1 l' w' Hw1); [|exact Hsteps].
    destruct Hw as [_ _ H2 _ _ _].
    destruct b; cbn [narrow threatFound upperBound]; [|exact Hl].
    split; [lia|reflexivity].
Qed.

End Found.

(** X10.  At the end of a search a threat counts as found exactly when
    some prefix shorter than the whole file was flagged, that is when
    [upperBound] is below the length of the file; otherwise the report is
    "Not malicious", although the scan of the whole file was malicious. *)
Theorem found_iff_shorter_prefix (os : OS) (original_file : list Byte.byte)
    (testFilePath scanPath : string) (debug : bool) (fuel : nat)
    (w w1 w2 : World) (l : Locals) :
  goint.len original_file <= goint.max_len ->
  loop os original_file testFilePath scanPath debug fuel
    (initial original_file) w = Some (Return l w1) ->
  (threatFound l = true <-> upperBound l < goint.len original_file)
  /\ (upperBound l = goint.len original_file ->
      report original_file (goint.len original_file) l w2
      = Return tt (print [InfoNotMalicious] w2)).
Proof.
  intros Hfits Hloop.
  pose proof (initial_Window original_file Hfits) as Hw.
  destruct (loop_steps _ _ _ _ _ _ _ _ _ _ Hloop) as (k & _ & Hsteps & _).
  assert (Hiff : threatFound l = true
                 <-> upperBound l < goint.len original_file).
  { apply (steps_found os original_file testFilePath scanPath debug Hfits k
             (initial original_file) w l w1 Hw); [|exact Hsteps].
    cbn [initial threatFound upperBound]. split; [discriminate|lia]. }
  split; [exact Hiff|]. intros Hub. unfold report.
  destruct (threatFound l); [|reflexivity].
  destruct Hiff as [Hlt _]. specialize (Hlt eq_refl). lia.
Qed.

Lemma found_iff_shorter_prefix_witness :
  match
    loop (threshold_scanner 4 sample_report) four_bytes
      "kaspersky\testfile.exe" "avp.com" false 2 (initial four_bytes)
      (world_with "sample.exe" four_bytes)
  with
  | Some (Return l _) =>
      threatFound l = true <-> upperBound l < goint.len four_bytes
  | _ => False
  end.
Proof.
  destruct (loop (threshold_scanner 4 sample_report) four_bytes
              "kaspersky\testfile.exe" "avp.com" false 2 (initial four_bytes)
              (world_with "sample.exe" four_bytes))
    as [[l w1|e w1|w1]|] eqn:Hloop;
    try (vm_compute in Hloop; discriminate).
  exact (proj1 (found_iff_shorter_prefix (threshold_scanner 4 sample_report)
                  four_bytes "kaspersky\testfile.exe" "avp.com" false 2
                  (world_with "sample.exe" four_bytes) w1 w1 l
                  ltac:(vm_compute; discriminate) Hloop)).
Defined.

(** X11.  A threat that only the whole file shows is not localised: when
    the scanner flags the file but none of its proper prefixes, the search
    ends with [lastGood = N - 1] and [upperBound = N], no threat counts as
    found and the report is "Not malicious", for a file of any length. *)
Theorem whole_file_only_not_malicious (os : OS)
    (original_file : list Byte.byte) (testFilePath scanPath : string)
    (debug : bool) (w w2 : World) (fuel : nat) :
  goint.len original_file <= goint.max_len ->
  0 < goint.len original_file ->
  (forall n, io_error os n testFilePath = None) ->
  (forall n files data,
     files testFilePath = Some data ->
     IsMalicious
       (stdout_of (exec os n scanPath
                     ["SCAN"; testFilePath; "/i0"]%string files))
     = (goint.len original_file <=? goint.len data)) ->
  (Z.to_nat (Z.log2_up (goint.len original_file)) <= fuel)%nat ->
  exists l w1,
    loop os original_file testFilePath scanPath debug fuel
      (initial original_file) w = Some (Return l w1)
    /\ lastGood l = goint.len original_file - 1
    /\ upperBound l = goint.len original_file
    /\ threatFound l = false
    /\ report original_file (goint.len original_file) l w2
       = Return tt (print [InfoNotMalicious] w2).
Proof.
  intros Hfits Hpos Hwrites Horacle Hfuel.
  destruct (converge os original_file testFilePath scanPath debug
              (goint.len original_file) Hfits Hwrites Horacle
              (Z.to_nat (Z.log2_up (goint.len original_file)))
              fuel (initial original_file) w
              (initial_Window original_file Hfits))
    as (l & w1 & Hloop & Hlg & Hub); [| |assumption|].
  - cbn [initial lastGood upperBound]. lia.
  - cbn [initial lastGood upperBound]. rewrite Z.sub_0_r.
    apply log2_up_bound.
  - exists l, w1. repeat split; try assumption.
    + destruct (loop_steps _ _ _ _ _ _ _ _ _ _ Hloop) as (k & _ & Hsteps & _).
      pose proof (steps_found os original_file testFilePath scanPath debug
                    Hfits k (initial original_file) w l w1
                    (initial_Window original_file Hfits)) as Hiff.
      destruct (threatFound l); [|reflexivity].
      destruct Hiff as [Hlt _]; [|exact Hsteps|specialize (Hlt eq_refl); lia].
      cbn [initial threatFound upperBound]. split; [discriminate|lia].
    + destruct (loop_steps _ _ _ _ _ _ _ _ _ _ Hloop) as (k & _ & Hsteps & _).
      pose proof (steps_found os original_file testFilePath scanPath debug
                    Hfits k (initial original_file) w l w1
                    (initial_Window original_file Hfits)) as Hiff.
      unfold report. destruct (threatFound l); [|reflexivity].
      destruct Hiff as [Hlt _]; [|exact Hsteps|specialize (Hlt eq_refl); lia].
      cbn [initial threatFound upperBound]. split; [discriminate|lia].
Qed.

Lemma whole_file_only_not_malicious_witness :
  exists l w1,
    loop (threshold_scanner 70 sample_report) seventy_bytes
      "kaspersky\testfile.exe" "avp.com" false 7 (initial seventy_bytes)
      (world_with "sample.exe" seventy_bytes) = Some (Return l w1)
    /\ lastGood l = 69
    /\ upperBound l = 70
    /\ threatFound l = false
    /\ report seventy_bytes 70 l (world_with "sample.exe" seventy_bytes)
       = Return tt
           (print [InfoNotMalicious] (world_with "sample.exe" seventy_bytes)).
Proof.
  apply (whole_file_only_not_malicious (threshold_scanner 70 sample_report)
           seventy_bytes "kaspersky\testfile.exe" "avp.com" false
           (world_with "sample.exe" seventy_bytes)
           (world_with "sample.exe" seventy_bytes) 7).
  - vm_compute. discriminate.
  - reflexivity.
  - reflexivity.
  - apply threshold_scanner_oracle.
  - vm_compute. lia.
Defined.

(** X12.  The window dumped by the report is never empty and never longer
    than 64 bytes, and it holds the byte at the isolated offset
    [lastGood], which lies inside the file. *)
Theorem dump_holds_offset (os : OS) (original_file : list Byte.byte)
    (testFilePath scanPath : string) (debug : bool) (fuel : nat)
    (w w1 w2 : World) (l : Locals) :
  goint.len original_file <= goint.max_len ->
  loop os original_file testFilePath scanPath debug fuel
    (initial original_file) w = Some (Return l w1) ->
  threatFound l = true ->
  let size := goint.len original_file in
  let start := Z.max 0 (lastGood l - 32) in
  exists threatData,
    report original_file size l w2
    = Return tt
        (print (map ErrThreat (uniqueThreats (threat_list w2)))
           (print [HexDump threatData]
              (print [NewLine; OkElapsed;
                      ErrIsolated (lastGood l) (lastGood l) size] w2)))
    /\ 1 <= goint.len threatData <= 64
    /\ lastGood l < size
    /\ nth_error threatData (Z.to_nat (lastGood l - start))
       = nth_error original_file (Z.to_nat (lastGood l))
    /\ nth_error original_file (Z.to_nat (lastGood l)) <> None.
Proof.
  intros Hfits Hloop Hfound size start. subst size start.
  destruct (loop_steps _ _ _ _ _ _ _ _ _ _ Hloop) as (k & _ & Hsteps & Hg).
  destruct (steps_Window _ _ _ _ _ Hfits _ _ _ _ _
              (initial_Window original_file Hfits) Hsteps) as (Hw & _).
  rewrite (guard_width _ _ Hfits Hw) in Hg. apply Z.ltb_ge in Hg.
  pose proof (window_found _ _ Hw Hfound) as Hlt.
  destruct (window_clamped _ l Hfits Hw) as [_ Hm].
  pose proof Hw as [H0 _ H2 _ _ _].
  assert (Hmid : mid l = lastGood l).
  { rewrite (window_mid _ _ Hw).
    replace (lastGood l + upperBound l) with (1 + lastGood l * 2) by lia.
    rewrite Z.div_add by lia. reflexivity. }
  destruct (report_cases original_file l w2 Hfits Hw)
    as (Hb1 & Hb2 & data & Hslice & Hrep).
  rewrite Hfound, Hmid in *.
  rewrite slice_in_bounds in Hslice by tauto. injection Hslice as <-.
  eexists. split; [exact Hrep|].
  unfold goint.len in *. rewrite length_firstn, length_skipn.
  split; [lia|]. split; [lia|].
  rewrite nth_error_firstn, nth_error_skipn.
  destruct (Nat.ltb_spec
              (Z.to_nat (lastGood l - Z.max 0 (lastGood l - 32)))
              (Z.to_nat
                 (Z.min (Z.of_nat (List.length original_file))
                    (lastGood l + 32) - Z.max 0 (lastGood l - 32))));
    [|lia].
  split.
  - f_equal. lia.
  - apply nth_error_Some. lia.
Qed.

Lemma dump_holds_offset_witness :
  match
    loop (threshold_scanner 3 sample_report) four_bytes
      "kaspersky\testfile.exe" "avp.com" false 2 (initial four_bytes)
      (world_with "sample.exe" four_bytes)
  with
  | Some (Return l _) =>
      lastGood l < 4
      /\ nth_error four_bytes (Z.to_nat (lastGood l)) <> None
  | _ => False
  end.
Proof.
  destruct (loop (threshold_scanner 3 sample_report) four_bytes
              "kaspersky\testfile.exe" "avp.com" false 2 (initial four_bytes)
              (world_with "sample.exe" four_bytes))
    as [[l w1|e w1|w1]|] eqn:Hloop;
    try (vm_compute in Hloop; discriminate).
  assert (Hfound : threatFound l = true)
    by (vm_compute in Hloop; now injection Hloop as <- _).
  destruct (dump_holds_offset (threshold_scanner 3 sample_report) four_bytes
              "kaspersky\testfile.exe" "avp.com" false 2
              (world_with "sample.exe" four_bytes) w1 w1 l
              ltac:(vm_compute; discriminate) Hloop Hfound)
    as (data & _ & _ & Hlt & _ & Hnth).
  now split.
Defined.

(** X13.  What an iteration scans is the prefix of [mid] bytes of the
    file, written to the scratch file: a prefix that is neither empty nor
    the whole file.  The iteration starts one scan of the scratch file and
    moves one bound to [mid] by the verdict on that prefix. *)
Theorem iteration_scans_proper_prefix (os : OS)
    (original_file : list Byte.byte) (testFilePath scanPath : string)
    (debug : bool) (w w1 w2 : World) (k : nat) (l l' : Locals) :
  goint.len original_file <= goint.max_len ->
  steps os original_file testFilePath scanPath debug k
    (initial original_file) w = Some (l, w1) ->
  steps os original_file testFilePath scanPath debug 1 l w1 = Some (l', w2) ->
  let scratch := firstn (Z.to_nat (mid l)) original_file in
  0 < mid l < goint.len original_file
  /\ goint.len scratch = mid l
  /\ fs w2 testFilePath = Some scratch
  /\ spawned w2 = spawned w1 ++ [scan_command testFilePath scanPath]
  /\ l' = narrow (IsMalicious
                    (iteration_output os testFilePath scanPath scratch w1)) l.
Proof.
  intros Hfits Hk H1 scratch. subst scratch.
  destruct (steps_Window _ _ _ _ _ Hfits _ _ _ _ _
              (initial_Window original_file Hfits) Hk) as (Hw & _).
  cbn [steps] in H1. destruct (guard l) eqn:Hg; [|discriminate].
  destruct (narrow_Window _ l true Hfits Hw Hg) as (Hmid & _).
  pose proof Hw as [H0 _ H2 _ Hfrom _].
  destruct (slice_prefix original_file (mid l)) as [Hslice Hlen]; [lia|].
  pose proof (body_cases os original_file testFilePath scanPath debug
                Hfits l w1 Hw Hg) as Hbody.
  pose proof (body_effects os original_file testFilePath scanPath debug l w1)
    as Heff.
  destruct (io_error os (now w1) testFilePath) as [err|];
    [now rewrite Hbody in H1|].
  destruct Hbody as (w' & Hb & Hsp & _). rewrite Hb in H1, Heff.
  injection H1 as <- <-.
  destruct Heff as (data & Hslice' & _ & Hfs & _).
  rewrite Hfrom, Hslice in Hslice'. injection Hslice' as <-.
  repeat split; try lia; try assumption.
  rewrite Hfs. unfold written. now rewrite String.eqb_refl.
Qed.

Lemma iteration_scans_proper_prefix_witness :
  match
    steps (threshold_scanner 3 sample_report) four_bytes
      "kaspersky\testfile.exe" "avp.com" false 1 (initial four_bytes)
      (world_with "sample.exe" four_bytes)
  with
  | Some (_, w2) =>
      fs w2 "kaspersky\testfile.exe" = Some [Byte.x4d; Byte.x5a]
  | None => False
  end.
Proof.
  destruct (steps (threshold_scanner 3 sample_report) four_bytes
              "kaspersky\testfile.exe" "avp.com" false 1 (initial four_bytes)
              (world_with "sample.exe" four_bytes))
    as [[l' w2]|] eqn:H1; [|vm_compute in H1; discriminate].
  exact (proj1 (proj2 (proj2
           (iteration_scans_proper_prefix
              (threshold_scanner 3 sample_report) four_bytes
              "kaspersky\testfile.exe" "avp.com" false
              (world_with "sample.exe" four_bytes)
              (world_with "sample.exe" four_bytes) w2 0 (initial four_bytes)
              l' ltac:(vm_compute; discriminate) eq_refl H1)))).
Defined.

(** ** The collector while its channel is open *)

(** X14.  The collector takes the pending names in the order in which
    they were sent and loses none; when none is left it blocks if the
    channel is open. *)
Theorem collector_keeps_order (names threat_list : list string)
    (is_closed : bool) :
  collector_run (List.length names) (Chan names is_closed) threat_list
  = Continue (Chan [] is_closed, threat_list ++ names)
  /\ collector_turn (Chan [] false) (threat_list ++ names) = Wait.
Proof.
  split; [|reflexivity]. revert threat_list.
  induction names as [|name names IH]; intros threat_list.
  - cbn. now rewrite app_nil_r.
  - cbn [List.length collector_run]. unfold collector_turn, recv.
    cbn [pending closed]. rewrite IH, <- app_assoc. reflexivity.
Qed.

(** ** A scanner that is a function of the file it is given *)

Section Deterministic.

Variable os : OS.
Variable original_file : list Byte.byte.
Variable testFilePath scanPath : string.
Variable debug : bool.
Variable verdict : list Byte.byte -> bool.

Hypothesis fits : goint.len original_file <= goint.max_len.
Hypothesis oracle :
  forall n files data,
    files testFilePath = Some data ->
    IsMalicious
      (stdout_of (exec os n scanPath
                    ["SCAN"; testFilePath; "/i0"]%string files))
    = verdict data.

Let prefix_of (n : Z) : list Byte.byte := firstn (Z.to_nat n) original_file.

(** [lastGood] has been scanned clean unless it is still 0, and
    [upperBound] has been scanned malicious unless it is still the length
    of the file. *)
Lemma steps_boundary (k : nat) :
  forall (l : Locals) (w : World) (l' : Locals) (w' : World),
    Window (goint.len original_file) l ->
    (lastGood l = 0 \/ verdict (prefix_of (lastGood l)) = false) ->
    (upperBound l = goint.len original_file
     \/ verdict (prefix_of (upperBound l)) = true) ->
    steps os original_file testFilePath scanPath debug k l w = Some (l', w') ->
    (lastGood l' = 0 \/ verdict (prefix_of (lastGood l')) = false)
    /\ (upperBound l' = goint.len original_file
        \/ verdict (prefix_of (upperBound l')) = true).
Proof.
  induction k as [|k IH]; intros l w l' w' Hw Hlo Hhi Hsteps.
  - injection Hsteps as <- <-. now split.
  - cbn [steps] in Hsteps. destruct (guard l) eqn:Hg; [|discriminate].
    pose proof (body_cases os original_file testFilePath scanPath debug
                  fits l w Hw Hg) as Hbody.
    destruct (io_error os (now w) testFilePath) as [err|];
      [now rewrite Hbody in Hsteps|].
    destruct Hbody as (w1 & Hb & _). rewrite Hb in Hsteps.
    unfold iteration_output in Hsteps.
    rewrite oracle with (data := firstn (Z.to_nat (mid l)) original_file)
      in Hsteps by (unfold written; now rewrite String.eqb_refl).
    fold (prefix_of (mid l)) in Hsteps.
    destruct (narrow_Window _ l (verdict (prefix_of (mid l))) fits Hw Hg)
      as (_ & Hw1 & _).
    apply (IH (narrow (verdict (prefix_of (mid l))) l) w1 l' w' Hw1);
      [| |exact Hsteps];
      destruct (verdict (prefix_of (mid l))) eqn:Hv;
      cbn [narrow lastGood upperBound]; auto.
Qed.

End Deterministic.

(** X15.  With a scanner whose verdict is a function of the scanned
    bytes, monotone or not, a threat is reported only at a genuine
    boundary: the prefix of [upperBound = lastGood + 1] bytes is flagged,
    and the prefix of [lastGood] bytes is clean unless [lastGood] is 0,
    the one length that is never scanned. *)
Theorem reported_offset_is_boundary (os : OS)
    (original_file : list Byte.byte) (testFilePath scanPath : string)
    (debug : bool) (verdict : list Byte.byte -> bool) (fuel : nat)
    (w w1 : World) (l : Locals) :
  goint.len original_file <= goint.max_len ->
  (forall n files data,
     files testFilePath = Some data ->
     IsMalicious
       (stdout_of (exec os n scanPath
                     ["SCAN"; testFilePath; "/i0"]%string files))
     = verdict data) ->
  loop os original_file testFilePath scanPath debug fuel
    (initial original_file) w = Some (Return l w1) ->
  threatFound l = true ->
  upperBound l = lastGood l + 1
  /\ verdict (firstn (Z.to_nat (upperBound l)) original_file) = true
  /\ (lastGood l = 0
      \/ verdict (firstn (Z.to_nat (lastGood l)) original_file) = false).
Proof.
  intros Hfits Horacle Hloop Hfound.
  pose proof (initial_Window original_file Hfits) as Hw.
  destruct (loop_steps _ _ _ _ _ _ _ _ _ _ Hloop) as (k & _ & Hsteps & Hg).
  destruct (steps_Window _ _ _ _ _ Hfits _ _ _ _ _ Hw Hsteps) as (Hwl & _).
  rewrite (guard_width _ _ Hfits Hwl) in Hg. apply Z.ltb_ge in Hg.
  pose proof (window_found _ _ Hwl Hfound) as Hlt.
  destruct (steps_boundary os original_file testFilePath scanPath debug
              verdict Hfits Horacle k (initial original_file) w l w1 Hw)
    as [Hlo Hhi]; [now left|now left|exact Hsteps|].
  pose proof (steps_found os original_file testFilePath scanPath debug
                Hfits k (initial original_file) w l w1 Hw) as Hiff.
  destruct Hiff as [Hub _]; [|exact Hsteps|].
  { cbn [initial threatFound upperBound]. split; [discriminate|lia]. }
  specialize (Hub Hfound).
  split; [lia|]. split; [|exact Hlo].
  destruct Hhi as [Hhi|Hhi]; [lia|exact Hhi].
Qed.

Lemma reported_offset_is_boundary_witness :
  match
    loop (threshold_scanner 3 sample_report) four_bytes
      "kaspersky\testfile.exe" "avp.com" false 2 (initial four_bytes)
      (world_with "sample.exe" four_bytes)
  with
  | Some (Return l _) => upperBound l = lastGood l + 1
  | _ => False
  end.
Proof.
  destruct (loop (threshold_scanner 3 sample_report) four_bytes
              "kaspersky\testfile.exe" "avp.com" false 2 (initial four_bytes)
              (world_with "sample.exe" four_bytes))
    as [[l w1|e w1|w1]|] eqn:Hloop;
    try (vm_compute in Hloop; discriminate).
  assert (Hfound : threatFound l = true)
    by (vm_compute in Hloop; now injection Hloop as <- _).
  exact (proj1 (reported_offset_is_boundary
                  (threshold_scanner 3 sample_report) four_bytes
                  "kaspersky\testfile.exe" "avp.com" false
                  (fun data => 3 <=? goint.len data) 2
                  (world_with "sample.exe" four_bytes) w1 l
                  ltac:(vm_compute; discriminate)
                  (threshold_scanner_oracle 3 "avp.com"
                     "kaspersky\testfile.exe")
                  Hloop Hfound)).
Defined.

(** X16.  An empty file that the scanner flags is not searched: no
    iteration runs, the one scan is that of the file, and the run prints
    "Not malicious". *)
Theorem empty_file (os : OS) (file scanPath : string) (debug : bool)
    (w : World) (fuel : nat) :
  fs w file = Some [] ->
  io_error os (now w) file = None ->
  IsMalicious (first_output os file scanPath w) = true ->
  exists w',
    KasperskyRun fuel os file scanPath debug w = Some (Return tt w')
    /\ console w'
       = console w ++ [NewLine; ErrThreatDetected; InfoNotMalicious]
    /\ spawned w' = spawned w ++ [scan_command file scanPath].
Proof.
  intros Hfile Hio Hmal.
  rewrite (KasperskyRun_read fuel os file scanPath debug w [] Hfile Hio), Hmal.
  assert (Hloop : forall w0,
             loop os [] "kaspersky\testfile.exe" scanPath debug fuel
               (initial []) w0 = Some (Return (initial []) w0))
    by (intros w0; now destruct fuel).
  rewrite Hloop. eexists. split; [reflexivity|].
  cbn. rewrite <- !app_assoc. now split.
Qed.

Lemma empty_file_witness :
  exists w',
    KasperskyRun 0 (threshold_scanner 0 sample_report) "sample.exe" "avp.com"
      false (world_with "sample.exe" []) = Some (Return tt w')
    /\ console w' = [NewLine; ErrThreatDetected; InfoNotMalicious]
    /\ spawned w' = [scan_command "sample.exe" "avp.com"].
Proof.
  apply (empty_file (threshold_scanner 0 sample_report) "sample.exe"
           "avp.com" false (world_with "sample.exe" []) 0); reflexivity.
Defined.

(** ** What an iteration prints *)


